(** * Helpdesk ticket report (main.py): a shallow embedding and its properties

    The program reads helpdesk tickets from a spreadsheet, aggregates them
    with pandas and writes an Excel and a PDF report, optionally mailing both.

    The embedding follows main.py class by class:
    - [Tickets_init] is [Tickets.__init__];
    - [TicketReport_init], [tickets_per_day], [closed_tickets_per_day],
      [category_distribution], [closure_rate], [summary] and the two exports
      are the methods of [TicketReport];
    - [ReportGenarator_init], [load_tickets], [generate_report] and
      [send_email] are the methods of [ReportGenarator].

    pandas, Python's float arithmetic and the outside world (files, SMTP) are
    not part of main.py.  Each library call the program makes is modelled by a
    definition whose comment states the library behaviour it stands for. *)

From Stdlib Require Import ZArith QArith Qround List String Ascii Bool Lia Arith.
From Stdlib Require Import Sorted Permutation.
From Stdlib Require Import Floats.SpecFloat.
From Stdlib Require Import Qabs Lqa.
Import ListNotations.

Local Open Scope string_scope.
Local Open Scope Z_scope.
Local Open Scope list_scope.

(** ** Python exceptions and results *)

(** The exceptions that the modelled code paths can raise. *)
Inductive exn : Type :=
| KeyError (key : string)          (* DataFrame column lookup of an absent label *)
| AttributeError (attr : string)   (* attribute absent from the object *)
| NameError (name : string)        (* global name not defined *)
| TypeError                        (* call with the wrong number of arguments *)
| ValueError                       (* a value the callee refuses *)
| ParseError                       (* pd.to_datetime rejects its argument *)
| LoadError                        (* pd.read_excel cannot read the source *)
| IOError                          (* an output file cannot be written *)
| SMTPError.                       (* login or transport failure *)

(** A Python computation either returns a value or raises. *)
Inductive result (A : Type) : Type :=
| Ok (a : A)
| Raise (e : exn).
Arguments Ok {A} a.
Arguments Raise {A} e.

Definition bind {A B : Type} (r : result A) (k : A -> result B) : result B :=
  match r with
  | Ok a => k a
  | Raise e => Raise e
  end.

Notation "x <- r ;; k" := (bind r (fun x => k))
  (at level 61, r at next level, right associativity).

(** ** Binary64 arithmetic, as far as [closure_rate] uses it

    A finite non-negative double is represented by its exact value, a
    rational kept in lowest terms.  Every operation computes the exact
    result and rounds it to the nearest double, ties to even (IEEE 754
    round-to-nearest-even), which is what CPython does for [int / int],
    for [float * float] and for the two conversions inside [round]. *)
Module Binary64.

(** Round the positive fraction [n / d] to the nearest integer, ties to even. *)
Definition rne (n d : Z) : Z :=
  let q := n / d in
  match (2 * (n mod d)) ?= d with
  | Lt => q
  | Gt => q + 1
  | Eq => if Z.even q then q else q + 1
  end.

(** [floor (log2 (n / d))] for positive [n] and [d]. *)
Definition ilog2 (n d : Z) : Z :=
  let k := Z.log2 n - Z.log2 d in
  if 0 <=? k
  then (if d * 2 ^ k <=? n then k else k - 1)
  else (if d <=? n * 2 ^ (- k) then k else k - 1).

(** The exponent of the unit in the last place of [n / d]: 53 significant
    bits, and never below the exponent of the subnormals. *)
Definition ulp_exp (n d : Z) : Z := Z.max (ilog2 n d - 52) (-1074).

(** The double nearest to the rational [q], for [0 <= q] below the overflow
    threshold (no value above 10000 reaches this function). *)
Definition RN (q : Q) : Q :=
  let n := Qnum q in
  let d := Zpos (Qden q) in
  if n <=? 0 then 0%Q
  else
    let e := ulp_exp n d in
    if e <=? 0
    then Qred (Qmake (rne (n * 2 ^ (- e)) d) (Z.to_pos (2 ^ (- e))))
    else Qred (inject_Z (rne n (d * 2 ^ e) * 2 ^ e)).

(** Python [a / b] on ints: the correctly rounded quotient. *)
Definition truediv (a b : Z) : Q := RN (Qmake a (Z.to_pos b)).

(** Python [x * y] on floats. *)
Definition fmul (x y : Q) : Q := RN (x * y).

(** Python [round(x, 2)] on a float: [x] is converted to the decimal with
    two fractional digits nearest to its exact value (ties to even), and that
    decimal is converted back to the nearest double. *)
Definition round2 (x : Q) : Q :=
  RN (Qmake (rne (Qnum x * 100) (Zpos (Qden x))) 100).

(** The exact value of a finite IEEE number of the standard library. *)
Definition SF2Q (f : spec_float) : Q :=
  match f with
  | S754_finite false m e =>
      if 0 <=? e then Qred (inject_Z (Zpos m * 2 ^ e))
      else Qred (Qmake (Zpos m) (Z.to_pos (2 ^ (- e))))
  | _ => 0%Q
  end.

(** Integers below 2^53 as IEEE numbers. *)
Definition SFofZ (z : Z) : spec_float :=
  match z with
  | Zpos p => SpecFloat.binary_normalize 53 1024 (Zpos p) 0 false
  | _ => S754_zero false
  end.

(** [(c / t) * 100] with the IEEE operations of the standard library. *)
Definition SF_rate (c t : Z) : spec_float :=
  SFmul 53 1024 (SFdiv 53 1024 (SFofZ c) (SFofZ t)) (SFofZ 100).

(** Agreement of this module with the standard library's IEEE operations on
    the rate of [c] closed tickets out of [t], and on the last conversion of
    [round2] (the decimal [k / 100] to the nearest double). *)
Definition agrees_with_SpecFloat (c t : Z) : bool :=
  let x := fmul (truediv c t) (inject_Z 100) in
  let k := rne (Qnum x * 100) (Zpos (Qden x)) in
  Qeq_bool x (SF2Q (SF_rate c t))
  && Qeq_bool (round2 x) (SF2Q (SFdiv 53 1024 (SFofZ k) (SFofZ 100))).

(** All pairs [0 <= c <= t] with [1 <= t <= n]. *)
Definition all_rates_agree (n : nat) : bool :=
  forallb (fun t => forallb (fun c => agrees_with_SpecFloat (Z.of_nat c) (Z.of_nat t))
                            (seq 0 (S t)))
          (seq 1 n).

(** Larger counts on which the agreement is checked as well. *)
Definition sample_rates : list (Z * Z) :=
  [(23, 160); (49, 160); (51, 160); (1, 20000); (7, 100); (1, 1000000);
   (123456789, 987654321); (1, 4294967296); (999999999999, 1000000000000);
   (4503599627370497, 9007199254740991); (9007199254740990, 9007199254740991)].

End Binary64.

(** ** Values read from the source table *)

(** A cell of the spreadsheet as [pd.read_excel] returns it: an empty cell
    is the float NaN, a text cell a [str], a numeric cell a number. *)
Inductive scalar : Type :=
| NaN
| Str (s : string)
| Int (n : Z).

Definition scalar_eqb (a b : scalar) : bool :=
  match a, b with
  | NaN, NaN => true
  | Str s, Str s' => String.eqb s s'
  | Int n, Int n' => Z.eqb n n'
  | _, _ => false
  end.

(** [pd.notna] on a scalar. *)
Definition notna (v : scalar) : bool :=
  match v with
  | NaN => false
  | _ => true
  end.

(** A pandas [Timestamp] without time zone, as the date cells of a sheet
    give it: nanoseconds since 1970-01-01T00:00, as pandas stores it. *)
Definition Timestamp : Type := Z.

(** A calendar date: days since 1970-01-01. *)
Definition date : Type := Z.

Definition ns_per_day : Z := 86400000000000.

(** [Timestamp.date()]: the calendar date, the time of day dropped. *)
Definition date_of (t : Timestamp) : date := t / ns_per_day.

(** A date cell, classified by what [pd.notna] and [pd.to_datetime] do with
    it: an empty cell (NaN, for which [pd.notna] is false); a value that
    [pd.to_datetime] converts to the timestamp [t] (a date cell, or text in
    a format pandas recognises); text that is present for [pd.notna] and
    that [pd.to_datetime] converts to NaT (such as 'NaT' or the empty
    string); a value that [pd.to_datetime] rejects. *)
Inductive raw_date : Type :=
| Blank
| DateTime (t : Timestamp)
| NaTText (text : string)
| Unparseable (text : string).

(** [pd.notna] on a date cell. *)
Definition notna_date (v : raw_date) : bool :=
  match v with
  | Blank => false
  | _ => true
  end.

(** [pd.to_datetime] on a scalar argument.  NaN is converted to NaT without
    an exception; [None] stands for NaT in the result. *)
Definition to_datetime (v : raw_date) : result (option Timestamp) :=
  match v with
  | Blank => Ok None
  | DateTime t => Ok (Some t)
  | NaTText _ => Ok None
  | Unparseable _ => Raise ParseError
  end.

(** [str.lower] on one character and on a string.  A string is the
    sequence of its bytes; the ASCII letters are converted and every other
    byte is kept, which is [str.lower] on ASCII strings.  On other strings
    it agrees with [str.lower] on whether the result is 'closed': no
    character outside ASCII has a letter of 'closed' as its lower-case
    form. *)
Definition lower_ascii (c : ascii) : ascii :=
  let n := nat_of_ascii c in
  if ((65 <=? n) && (n <=? 90))%nat then ascii_of_nat (n + 32) else c.

Fixpoint lower (s : string) : string :=
  match s with
  | EmptyString => EmptyString
  | String c s' => String (lower_ascii c) (lower s')
  end.

(** The attribute access [status.lower()]: only a [str] has the method; NaN
    is a float and a number is an int. *)
Definition call_lower (v : scalar) : result string :=
  match v with
  | Str s => Ok (lower s)
  | _ => Raise (AttributeError "lower")
  end.

(** ** class Tickets *)

(** The attributes that [Tickets.__init__] sets.  [date_opened] is what
    [pd.to_datetime] returns, a Timestamp or NaT (the inner [None]);
    [date_closed] is Python's [None] (the outer [None]) or what
    [pd.to_datetime] returns. *)
Record Tickets : Type := mkTickets {
  ticket_id : scalar;
  date_opened : option Timestamp;
  date_closed : option (option Timestamp);
  category : scalar;
  status : string
}.

(** [Tickets.__init__], statement by statement. *)
Definition Tickets_init (ticket_id : scalar) (date_opened date_closed : raw_date)
    (category status : scalar) : result Tickets :=
  opened <- to_datetime date_opened ;;
  closed <- (if notna_date date_closed
             then (d <- to_datetime date_closed ;; Ok (Some d))
             else Ok None) ;;
  st <- call_lower status ;;
  Ok (mkTickets ticket_id opened closed category st).

(** ** pandas DataFrame, as far as TicketReport uses it *)

(** The dtype pandas infers for a column of Timestamps and missing values:
    [datetime64] as soon as one Timestamp or NaT is present, [object] when
    every value is Python's [None]. *)
Inductive dtype : Type :=
| datetime64
| object.

Definition is_some {A : Type} (o : option A) : bool :=
  match o with
  | Some _ => true
  | None => false
  end.

(** A frame over ticket rows: its column labels, the dtype of the
    'date_closed' column (the only one whose dtype varies with the data),
    and the rows. *)
Record DataFrame : Type := mkDataFrame {
  columns : list string;
  date_closed_dtype : dtype;
  rows : list Tickets
}.

Definition attribute_names : list string :=
  ["ticket_id"; "date_opened"; "date_closed"; "category"; "status"].

(** [pd.DataFrame([t.__dict__ for t in tickets])]: the columns are the keys
    of the dicts, so a frame built from no dict has no column at all. *)
Definition DataFrame_of_dicts (tickets : list Tickets) : DataFrame :=
  {| columns := match tickets with
                | [] => []
                | _ :: _ => attribute_names
                end;
     date_closed_dtype :=
       if existsb (fun t => is_some (date_closed t)) tickets
       then datetime64 else object;
     rows := tickets |}.

(** [len(df)]. *)
Definition len (df : DataFrame) : nat := List.length (rows df).

(** [df[label]]: the column, or KeyError when the frame has no such label. *)
Definition getitem {A : Type} (df : DataFrame) (label : string)
    (field : Tickets -> A) : result (list A) :=
  if existsb (String.eqb label) (columns df)
  then Ok (map field (rows df))
  else Raise (KeyError label).

(** [df[mask]] for a boolean mask: the rows whose mask entry is true;
    labels and dtypes are kept. *)
Definition select (df : DataFrame) (mask : list bool) : DataFrame :=
  {| columns := columns df;
     date_closed_dtype := date_closed_dtype df;
     rows := map fst (filter snd (combine (rows df) mask)) |}.

(** [df[df['status'] == 'closed']]. *)
Definition closed_rows (df : DataFrame) : result DataFrame :=
  st <- getitem df "status" status ;;
  Ok (select df (map (String.eqb "closed") st)).

(** The cell of a datetime column for a value of the 'date_closed'
    attribute: the frame holds NaT where the attribute is [None]. *)
Definition as_datetime (v : option (option Timestamp)) : option Timestamp :=
  match v with
  | Some d => d
  | None => None
  end.

(** [series.dt.date]: the accessor exists on datetime columns only; NaT
    stays missing. *)
Definition dt_date (dt : dtype) (col : list (option Timestamp))
  : result (list (option date)) :=
  match dt with
  | datetime64 => Ok (map (option_map date_of) col)
  | object => Raise (AttributeError "dt")
  end.

(** One more row in the group of key [d]; [k] is 1 when the counted cell is
    not null and 0 otherwise.  Groups are kept in ascending key order. *)
Fixpoint bump (d : date) (k : nat) (m : list (date * nat)) : list (date * nat) :=
  match m with
  | [] => [(d, k)]
  | (d', n) :: m' =>
      if d <? d' then (d, k) :: m
      else if d =? d' then (d', (n + k)%nat) :: m'
      else (d', n) :: bump d k m'
  end.

(** [groupby(keys)[...].count()] over rows given as (key, counted cell):
    rows whose key is missing belong to no group, the groups are sorted by
    key, and [count] counts the non-null cells of each group. *)
Fixpoint group_count (kvs : list (option date * scalar)) : list (date * nat) :=
  match kvs with
  | [] => []
  | (Some d, v) :: kvs' => bump d (if notna v then 1 else 0)%nat (group_count kvs')
  | (None, _) :: kvs' => group_count kvs'
  end.

(** [df.groupby(keys)['ticket_id'].count()]. *)
Definition groupby_count_ticket_id (df : DataFrame) (keys : list (option date))
  : result (list (date * nat)) :=
  ids <- getitem df "ticket_id" ticket_id ;;
  Ok (group_count (combine keys ids)).

(** One more occurrence of [c]; keys stay in first-seen order, as in the
    hash table behind [value_counts]. *)
Fixpoint tally (c : scalar) (m : list (scalar * nat)) : list (scalar * nat) :=
  match m with
  | [] => [(c, 1%nat)]
  | (c', n) :: m' =>
      if scalar_eqb c c' then (c', S n) :: m' else (c', n) :: tally c m'
  end.

(** Occurrences of the non-null values, keys in first-seen order. *)
Definition count_values (col : list scalar) : list (scalar * nat) :=
  fold_left (fun m c => if notna c then tally c m else m) col [].

(** Insertion of an entry into a list sorted by descending count, in front
    of the entries that do not have a larger count. *)
Fixpoint insert_desc (x : scalar * nat) (l : list (scalar * nat)) : list (scalar * nat) :=
  match l with
  | [] => [x]
  | y :: l' => if (snd x <? snd y)%nat then y :: insert_desc x l' else x :: l
  end.

(** [sort_values(ascending=False)] on the counts, taken as a stable sort:
    entries with equal counts keep their relative order. *)
Definition sort_values_desc (l : list (scalar * nat)) : list (scalar * nat) :=
  fold_right insert_desc [] l.

(** [series.value_counts()]: null values are dropped ([dropna=True] is the
    default) and the result is sorted by descending count. *)
Definition value_counts (col : list scalar) : list (scalar * nat) :=
  sort_values_desc (count_values col).

(** ** class TicketReport *)

Record TicketReport : Type := mkTicketReport {
  tickets : list Tickets;
  df : DataFrame
}.

(** [TicketReport.__init__]. *)
Definition TicketReport_init (tickets : list Tickets) : TicketReport :=
  {| tickets := tickets; df := DataFrame_of_dicts tickets |}.

(** [TicketReport.tickets_per_day].  The 'date_opened' column holds
    Timestamps and NaT, so it is a datetime column. *)
Definition tickets_per_day (self : TicketReport) : result (list (date * nat)) :=
  col <- getitem (df self) "date_opened" date_opened ;;
  keys <- dt_date datetime64 col ;;
  groupby_count_ticket_id (df self) keys.

(** [TicketReport.closed_tickets_per_day]. *)
Definition closed_tickets_per_day (self : TicketReport) : result (list (date * nat)) :=
  closed_df <- closed_rows (df self) ;;
  col <- getitem closed_df "date_closed" date_closed ;;
  keys <- dt_date (date_closed_dtype closed_df) (map as_datetime col) ;;
  groupby_count_ticket_id closed_df keys.

(** [TicketReport.category_distribution]. *)
Definition category_distribution (self : TicketReport) : result (list (scalar * nat)) :=
  col <- getitem (df self) "category" category ;;
  Ok (value_counts col).

(** A Python number: [closure_rate] returns the int 0 or a float. *)
Inductive number : Type :=
| PyInt (n : Z)
| PyFloat (x : Q).

(** [TicketReport.closure_rate]. *)
Definition closure_rate (self : TicketReport) : result number :=
  let total := len (df self) in
  closed_df <- closed_rows (df self) ;;
  let closed := len closed_df in
  if (total =? 0)%nat then Ok (PyInt 0)
  else Ok (PyFloat (Binary64.round2
             (Binary64.fmul (Binary64.truediv (Z.of_nat closed) (Z.of_nat total))
                            (inject_Z 100)))).

(** The dict that [summary] returns, one field per key, in the order of
    the dict display. *)
Record Summary : Type := mkSummary {
  total_tickets : nat;
  closed_tickets : nat;
  closure_rate_pct : number;
  tickets_per_day_map : list (date * nat);
  closed_per_day_map : list (date * nat);
  by_category : list (scalar * nat)
}.

(** [TicketReport.summary]: the values are evaluated in the order of the
    dict display. *)
Definition summary (self : TicketReport) : result Summary :=
  let total := len (df self) in
  closed_df <- closed_rows (df self) ;;
  rate <- closure_rate self ;;
  opened <- tickets_per_day self ;;
  closed <- closed_tickets_per_day self ;;
  cats <- category_distribution self ;;
  Ok (mkSummary total (len closed_df) rate opened closed cats).

(** ** The outside world and the trace of a run *)

(** A row of the source sheet: the five columns that [load_tickets] reads. *)
Record RawRow : Type := mkRawRow {
  Ticket_ID : scalar;
  Date_Opened : raw_date;
  Date_Closed : raw_date;
  Category : scalar;
  Status : scalar
}.

(** What the environment and the libraries answer to the program's
    requests in one run.  [write_excel] and [pdf_output] answer for the
    report of the run: they say whether the file was written completely; a
    write that fails may leave a file behind, which is not recorded. *)
Record World : Type := mkWorld {
  read_excel : string -> result (list RawRow);  (* pd.read_excel(path) *)
  write_excel : string -> result unit;          (* the ExcelWriter block *)
  pdf_output : string -> result unit;           (* the FPDF calls and pdf.output(path) *)
  set_header : string -> scalar -> result unit; (* msg[name] = value *)
  set_content : scalar -> result unit;          (* msg.set_content(value) *)
  open_rb : string -> result unit;              (* open(file, 'rb'), read, add_attachment *)
  smtp_connect : scalar -> scalar -> result unit; (* smtplib.SMTP_SSL(server, port) *)
  smtp_login : scalar -> scalar -> result unit; (* smtp.login(user, password) *)
  smtp_send_message : result unit;              (* smtp.send_message(msg) *)
  smtp_quit : result unit                       (* leaving the with block: QUIT *)
}.

(** The lines that the program prints. *)
Inductive line : Type :=
| SummaryHeader
| SummaryEntry (key : string)
| ExcelExported (path : string)
| PdfExported (path : string)
| EmailSentTo (recipient : scalar).

(** The observable steps of a run, in order: a line printed, a file
    written completely, a call of [send_email], a message accepted by the
    mail server. *)
Inductive event : Type :=
| Printed (l : line)
| ExcelWritten (path : string)
| PdfWritten (path : string)
| SendEmailCalled (attachments : list string)
| MessageSent (attachments : list string).

(** A computation with effects: it extends the trace and returns or raises. *)
Definition IO (A : Type) : Type := list event -> list event * result A.

Definition ret {A : Type} (a : A) : IO A := fun tr => (tr, Ok a).

Definition bindIO {A B : Type} (m : IO A) (k : A -> IO B) : IO B :=
  fun tr =>
    match m tr with
    | (tr', Ok a) => k a tr'
    | (tr', Raise e) => (tr', Raise e)
    end.

Notation "x <~ m ;; k" := (bindIO m (fun x => k))
  (at level 61, m at next level, right associativity).

Definition lift {A : Type} (r : result A) : IO A := fun tr => (tr, r).

(** A step that is recorded.  [print] is such a step: standard output is
    taken to accept every line. *)
Definition emit (e : event) : IO unit := fun tr => (tr ++ [e], Ok tt).

Fixpoint for_each {A : Type} (f : A -> IO unit) (l : list A) : IO unit :=
  match l with
  | [] => ret tt
  | a :: l' => _ <~ f a ;; for_each f l'
  end.

(** [with cm: body]: leaving the block calls [cm.__exit__], also when the
    body has raised; an exception of [__exit__] replaces that of the body. *)
Definition with_exit {A : Type} (exit : result unit) (body : IO A) : IO A :=
  fun tr =>
    match body tr with
    | (tr', Ok a) => (tr', (_ <- exit ;; Ok a))
    | (tr', Raise e) => (tr', match exit with
                              | Ok _ => Raise e
                              | Raise e' => Raise e'
                              end)
    end.

(** The trace and the outcome of a run that starts with an empty trace. *)
Definition run {A : Type} (m : IO A) : list event * result A := m [].

(** ** Module-level names of main.py *)

(** The classes that the module defines. *)
Inductive pyclass : Type :=
| class_Tickets
| class_TicketReport
| class_ReportGenarator.

(** The global namespace after the three [class] statements. *)
Definition module_globals : list (string * pyclass) :=
  [("Tickets", class_Tickets);
   ("TicketReport", class_TicketReport);
   ("ReportGenarator", class_ReportGenarator)].

(** Evaluation of a global name. *)
Definition lookup_global (name : string) : result pyclass :=
  match find (fun b => String.eqb name (fst b)) module_globals with
  | Some b => Ok (snd b)
  | None => Raise (NameError name)
  end.

(** A call of a class with the five cells of a row as arguments. *)
Definition call_with_row (c : pyclass) (row : RawRow) : result Tickets :=
  match c with
  | class_Tickets =>
      Tickets_init (Ticket_ID row) (Date_Opened row) (Date_Closed row)
                   (Category row) (Status row)
  | _ => Raise TypeError
  end.

Fixpoint map_result {A B : Type} (f : A -> result B) (l : list A) : result (list B) :=
  match l with
  | [] => Ok []
  | a :: l' => b <- f a ;; bs <- map_result f l' ;; Ok (b :: bs)
  end.

(** ** TicketReport: the two exports *)

Definition default_excel_path : string := "helpdesk_report.xlsx".
Definition default_pdf_path : string := "helpdesk_report.pdf".

(** [TicketReport.export_to_excel]. *)
Definition export_to_excel (w : World) (self : TicketReport) (path : string) : IO string :=
  _ <~ lift (summary self) ;;
  _ <~ lift (write_excel w path) ;;
  _ <~ emit (ExcelWritten path) ;;
  ret path.

(** [TicketReport.export_to_pdf]. *)
Definition export_to_pdf (w : World) (self : TicketReport) (path : string) : IO string :=
  _ <~ lift (summary self) ;;
  _ <~ lift (pdf_output w path) ;;
  _ <~ emit (PdfWritten path) ;;
  ret path.

(** ** class ReportGenarator *)

Definition config : Type := list (string * scalar).

Record ReportGenarator : Type := mkReportGenarator {
  excel_path : string;
  email_config : config
}.

(** [ReportGenarator.__init__]: [email_config or {}] replaces [None] (and
    every other falsy value) by the empty dict. *)
Definition ReportGenarator_init (excel_path : string) (email_config : option config)
  : ReportGenarator :=
  {| excel_path := excel_path;
     email_config := match email_config with
                     | Some (b :: cfg) => b :: cfg
                     | _ => []
                     end |}.

(** [cfg[key]]. *)
Definition cfg_item (cfg : config) (key : string) : result scalar :=
  match find (fun b => String.eqb key (fst b)) cfg with
  | Some b => Ok (snd b)
  | None => Raise (KeyError key)
  end.

(** [ReportGenarator.load_tickets]: the name [Ticket] is evaluated for each
    row of the sheet, before the cells are passed to it. *)
Definition load_tickets (w : World) (self : ReportGenarator) : result (list Tickets) :=
  sheet <- read_excel w (excel_path self) ;;
  map_result (fun row => cls <- lookup_global "Ticket" ;; call_with_row cls row) sheet.

(** [cfg.get(key, default)]. *)
Definition cfg_get (cfg : config) (key : string) (default : scalar) : scalar :=
  match find (fun b => String.eqb key (fst b)) cfg with
  | Some b => snd b
  | None => default
  end.

Definition default_subject : scalar := Str "Helpdesk Report".
Definition default_body : scalar :=
  Str "Please find attached the daily Helpdesk report.".

(** [ReportGenarator.send_email], statement by statement: the three
    headers and the body are set, the attachments are read and attached,
    the connection is opened with the server and the port, and inside the
    [with] block 'from' and 'password' are read for the login before the
    message is sent; the recipient is read again for the line printed at
    the end. *)
Definition send_email (w : World) (self : ReportGenarator) (attachments : list string)
  : IO unit :=
  _ <~ emit (SendEmailCalled attachments) ;;
  let cfg := email_config self in
  _ <~ lift (set_header w "Subject" (cfg_get cfg "subject" default_subject)) ;;
  sender <~ lift (cfg_item cfg "from") ;;
  _ <~ lift (set_header w "From" sender) ;;
  to <~ lift (cfg_item cfg "to") ;;
  _ <~ lift (set_header w "To" to) ;;
  _ <~ lift (set_content w (cfg_get cfg "body" default_body)) ;;
  _ <~ for_each (fun file => lift (open_rb w file)) attachments ;;
  server <~ lift (cfg_item cfg "smtp_server") ;;
  port <~ lift (cfg_item cfg "smtp_port") ;;
  _ <~ lift (smtp_connect w server port) ;;
  _ <~ with_exit (smtp_quit w)
         (user <~ lift (cfg_item cfg "from") ;;
          password <~ lift (cfg_item cfg "password") ;;
          _ <~ lift (smtp_login w user password) ;;
          _ <~ lift (smtp_send_message w) ;;
          emit (MessageSent attachments)) ;;
  recipient <~ lift (cfg_item cfg "to") ;;
  emit (Printed (EmailSentTo recipient)).

Definition summary_keys : list string :=
  ["Total Tickets"; "Closed Tickets"; "Closure Rate (%)";
   "Tickets per Day"; "Closed per Day"; "By Category"].

(** The part of [generate_report] after the tickets are loaded. *)
Definition report_and_notify (w : World) (self : ReportGenarator)
    (tickets : list Tickets) : IO unit :=
  let report := TicketReport_init tickets in
  _ <~ lift (summary report) ;;
  _ <~ emit (Printed SummaryHeader) ;;
  _ <~ for_each (fun k => emit (Printed (SummaryEntry k))) summary_keys ;;
  excel <~ export_to_excel w report default_excel_path ;;
  pdf <~ export_to_pdf w report default_pdf_path ;;
  _ <~ emit (Printed (ExcelExported excel)) ;;
  _ <~ emit (Printed (PdfExported pdf)) ;;
  match email_config self with
  | [] => ret tt
  | _ :: _ => send_email w self [excel; pdf]
  end.

(** [ReportGenarator.generate_report]. *)
Definition generate_report (w : World) (self : ReportGenarator) : IO unit :=
  tickets <~ lift (load_tickets w self) ;;
  report_and_notify w self tickets.

(** ** Quantities that the properties speak about *)

(** Number of elements of [l] that satisfy [p]. *)
Definition count {A : Type} (p : A -> bool) (l : list A) : nat :=
  List.length (filter p l).

(** A ticket whose status is 'closed'. *)
Definition is_closed (t : Tickets) : bool := String.eqb "closed" (status t).

(** The closed count: tickets whose status is 'closed'. *)
Definition closed_count (ts : list Tickets) : nat := count is_closed ts.

(** Sum of the counts of a grouping. *)
Definition sum_counts {K : Type} (m : list (K * nat)) : nat :=
  list_sum (map snd m).

(** Number of cells of a column equal to [c]. *)
Definition occurrences (c : scalar) (col : list scalar) : nat :=
  count (scalar_eqb c) col.

(** The distinct values of a column, each at its first position. *)
Fixpoint distinct (col : list scalar) : list scalar :=
  match col with
  | [] => []
  | c :: col' => c :: filter (fun x => negb (scalar_eqb x c)) (distinct col')
  end.

(** Membership in a list of values. *)
Definition mem (c : scalar) (l : list scalar) : bool := existsb (scalar_eqb c) l.

(** The order of the entries of [value_counts]: the count does not grow. *)
Definition count_ge (p q : scalar * nat) : Prop := (snd q <= snd p)%nat.

(** The non-null categories in first-seen order. *)
Definition first_seen (col : list scalar) : list scalar :=
  distinct (filter notna col).

(** The formula of the specification, [round(100 * closedCount / totalCount, 2)]
    and 0 for no ticket, with Python's arithmetic: [100 * closedCount] is an
    int and the quotient of two ints is rounded once. *)
Definition closure_rate_spec (ts : list Tickets) : number :=
  match ts with
  | [] => PyInt 0
  | _ :: _ =>
      PyFloat (Binary64.round2
                 (Binary64.truediv (100 * Z.of_nat (closed_count ts))
                                   (Z.of_nat (List.length ts))))
  end.

(** The same formula in exact arithmetic: [100 * closedCount / totalCount]
    rounded to two decimals, ties to even. *)
Definition closure_rate_exact (ts : list Tickets) : Q :=
  Qmake (Binary64.rne (100 * Z.of_nat (closed_count ts) * 100)
                      (Z.of_nat (List.length ts))) 100.

(** The invariant of the data model: the closed date is null unless the
    status is 'closed', and the opened date is present. *)
Definition ticket_invariant (t : Tickets) : Prop :=
  (as_datetime (date_closed t) <> None -> status t = "closed") /\ date_opened t <> None.

(** A date cell that [pd.to_datetime] rejects. *)
Definition is_unparseable (v : raw_date) : bool :=
  match v with
  | Unparseable _ => true
  | _ => false
  end.

(** A cell that holds a [str]. *)
Definition is_str (v : scalar) : bool :=
  match v with
  | Str _ => true
  | _ => false
  end.

(** The [SendEmailCalled] events of a trace. *)
Definition is_send_email (e : event) : bool :=
  match e with
  | SendEmailCalled _ => true
  | _ => false
  end.

(** ** Sample data *)

(** 2024-01-01T00:00 and 2024-01-02T00:00. *)
Definition jan_1 : Timestamp := 19723 * ns_per_day.
Definition jan_2 : Timestamp := 19724 * ns_per_day.

Definition open_ticket : Tickets :=
  mkTickets (Str "T-open") (Some jan_1) None (Str "software") "open".

Definition closed_ticket : Tickets :=
  mkTickets (Str "T-closed") (Some jan_1) (Some (Some jan_2)) (Str "network") "closed".

(** Status 'closed' and no close date. *)
Definition undated_closed_ticket : Tickets :=
  mkTickets (Str "T-undated") (Some jan_1) None (Str "network") "closed".

(** No category. *)
Definition uncategorised_ticket : Tickets :=
  mkTickets (Str "T-nocat") (Some jan_1) None NaN "open".

(** 160 tickets, 23 of them closed. *)
Definition tickets_23_of_160 : list Tickets :=
  repeat closed_ticket 23 ++ repeat open_ticket 137.

(** The example configuration of the [__main__] block. *)
Definition email_settings : config :=
  [("from", Str "your_email@gmail.com");
   ("password", Str "your_app_password");
   ("to", Str "manager@company.com");
   ("smtp_server", Str "smtp.gmail.com");
   ("smtp_port", Int 465);
   ("subject", Str "Daily Helpdesk Report");
   ("body", Str "Attached are today's Helpdesk reports (Excel + PDF).")].

(** Status 'open' and a close date. *)
Definition reopened_ticket : Tickets :=
  mkTickets (Str "T-reopened") (Some jan_1) (Some (Some jan_2)) (Str "network") "open".

(** No opened date. *)
Definition unopened_ticket : Tickets :=
  mkTickets (Str "T-unopened") None None (Str "network") "open".

Definition sample_row : RawRow :=
  mkRawRow (Str "T1") (DateTime jan_1) (DateTime jan_2) (Str "network") (Str "Closed").

(** A world in which every request succeeds and the sheet has one row. *)
Definition friendly_world : World :=
  {| read_excel := fun _ => Ok [sample_row];
     write_excel := fun _ => Ok tt;
     pdf_output := fun _ => Ok tt;
     set_header := fun _ _ => Ok tt;
     set_content := fun _ => Ok tt;
     open_rb := fun _ => Ok tt;
     smtp_connect := fun _ _ => Ok tt;
     smtp_login := fun _ _ => Ok tt;
     smtp_send_message := Ok tt;
     smtp_quit := Ok tt |}.

(** Status 'closed' and a close-date cell that holds the text 'NaT'. *)
Definition nat_closed_ticket : Tickets :=
  mkTickets (Str "T-nat") (Some jan_1) (Some None) (Str "network") "closed".

(** ** Ticket objects and their identity *)

(** Python objects have an identity and can be assigned to.  The heap holds
    the attributes of every ticket object, in the order of creation; a
    reference is a position in it.  A computation on objects takes the heap
    and returns the heap it leaves. *)
Definition ref : Type := nat.
Definition heap : Type := list Tickets.
Definition Obj (A : Type) : Type := heap -> heap * result A.

Definition ret_obj {A : Type} (a : A) : Obj A := fun h => (h, Ok a).

Definition bind_obj {A B : Type} (m : Obj A) (k : A -> Obj B) : Obj B :=
  fun h =>
    match m h with
    | (h', Ok a) => k a h'
    | (h', Raise e) => (h', Raise e)
    end.

(** A new object with the given attributes. *)
Definition alloc (t : Tickets) : Obj ref :=
  fun h => (h ++ [t], Ok (List.length h)).

(** [t.__dict__]: the attributes of the object, read. *)
Definition get_dict (r : ref) : Obj Tickets :=
  fun h => (h, match nth_error h r with
               | Some t => Ok t
               | None => Raise (AttributeError "__dict__")
               end).

(** [Tickets(...)]: [__init__] sets the attributes of a new object; when it
    raises, no object is left. *)
Definition new_Tickets (ticket_id : scalar) (date_opened date_closed : raw_date)
    (category status : scalar) : Obj ref :=
  match Tickets_init ticket_id date_opened date_closed category status with
  | Ok t => alloc t
  | Raise e => fun h => (h, Raise e)
  end.

(** [[t.__dict__ for t in tickets]]. *)
Fixpoint get_dicts (tickets : list ref) : Obj (list Tickets) :=
  match tickets with
  | [] => ret_obj []
  | r :: tickets' =>
      bind_obj (get_dict r) (fun t =>
      bind_obj (get_dicts tickets') (fun ts => ret_obj (t :: ts)))
  end.

(** [TicketReport(tickets)] on ticket objects: the frame is built from the
    attributes of the objects.  The methods of the report work on the frame
    alone. *)
Definition new_TicketReport (tickets : list ref) : Obj TicketReport :=
  bind_obj (get_dicts tickets) (fun ts => ret_obj (TicketReport_init ts)).

(** The string consists of ASCII characters. *)
Fixpoint is_ascii (s : string) : bool :=
  match s with
  | EmptyString => true
  | String c s' => (nat_of_ascii c <? 128)%nat && is_ascii s'
  end.

(** ** The script's entry point *)

(** A call [cls("tickets.xlsx", email_config=email_settings)]: of the three
    classes only ReportGenarator takes these arguments. *)
Definition call_with_path_and_config (c : pyclass) (path : string) (cfg : config)
  : result ReportGenarator :=
  match c with
  | class_ReportGenarator => Ok (ReportGenarator_init path (Some cfg))
  | _ => Raise TypeError
  end.

(** The [__main__] block: the name [ReportGenerator] is evaluated, called,
    and [generate_report] is called on the result. *)
Definition main (w : World) : IO unit :=
  cls <~ lift (lookup_global "ReportGenerator") ;;
  generator <~ lift (call_with_path_and_config cls "tickets.xlsx" email_settings) ;;
  generate_report w generator.

(** ** Quantities for the properties of the aggregations and of the driver *)

(** The ticket was opened on the calendar date [d]. *)
Definition opened_on (d : date) (t : Tickets) : bool :=
  match date_opened t with
  | Some ts => date_of ts =? d
  | None => false
  end.

(** The ticket has status 'closed' and was closed on the calendar date [d]. *)
Definition closed_on (d : date) (t : Tickets) : bool :=
  is_closed t &&
  match as_datetime (date_closed t) with
  | Some ts => date_of ts =? d
  | None => false
  end.

(** The ticket's id is not null. *)
Definition has_id (t : Tickets) : bool := notna (ticket_id t).

(** Some ticket of the sequence has a 'date_closed' other than [None]: its
    close-date cell was not empty. *)
Definition any_close_date (ts : list Tickets) : bool :=
  existsb (fun t => is_some (date_closed t)) ts.

(** The count that a grouping holds for the date [d], 0 without a bucket. *)
Definition count_at (d : date) (m : list (date * nat)) : nat :=
  sum_counts (filter (fun p => fst p =? d) m).

(** The computation returned. *)
Definition is_ok {A : Type} (r : result A) : bool :=
  match r with
  | Ok _ => true
  | Raise _ => false
  end.

(** The dict has the key. *)
Definition has_key (cfg : config) (key : string) : bool :=
  existsb (fun b => String.eqb key (fst b)) cfg.

(** The keys that [send_email] reads with [cfg[...]]. *)
Definition required_keys : list string :=
  ["from"; "to"; "smtp_server"; "smtp_port"; "password"].

(** The header [name] can be set from the value of [key]: the key is there
    and the email library accepts its value. *)
Definition header_ok (w : World) (cfg : config) (name key : string) : bool :=
  match cfg_item cfg key with
  | Ok v => is_ok (set_header w name v)
  | Raise _ => false
  end.

(** The connection can be opened: server and port are there and the server
    accepts the connection. *)
Definition connect_ok (w : World) (cfg : config) : bool :=
  match cfg_item cfg "smtp_server", cfg_item cfg "smtp_port" with
  | Ok server, Ok port => is_ok (smtp_connect w server port)
  | _, _ => false
  end.

(** The login succeeds: user and password are there and the server accepts
    them. *)
Definition login_ok (w : World) (cfg : config) : bool :=
  match cfg_item cfg "from", cfg_item cfg "password" with
  | Ok user, Ok password => is_ok (smtp_login w user password)
  | _, _ => false
  end.

(** Everything that [send_email] needs to get the message accepted by the
    mail server, in the order of its statements. *)
Definition can_transmit (w : World) (cfg : config) (attachments : list string) : bool :=
  is_ok (set_header w "Subject" (cfg_get cfg "subject" default_subject))
  && header_ok w cfg "From" "from"
  && header_ok w cfg "To" "to"
  && is_ok (set_content w (cfg_get cfg "body" default_body))
  && forallb (fun file => is_ok (open_rb w file)) attachments
  && connect_ok w cfg
  && login_ok w cfg
  && is_ok (smtp_send_message w).

(** Everything that [send_email] needs to return: the message is accepted
    and the connection is closed in order. *)
Definition can_send (w : World) (cfg : config) (attachments : list string) : bool :=
  can_transmit w cfg attachments && is_ok (smtp_quit w).

(** The [MessageSent] events of a trace. *)
Definition is_message_sent (e : event) : bool :=
  match e with
  | MessageSent _ => true
  | _ => false
  end.

(** The events of a trace that record a written file. *)
Definition is_file_written (e : event) : bool :=
  match e with
  | ExcelWritten _ | PdfWritten _ => true
  | _ => false
  end.

(** The exception that every run of [generate_report] ends with. *)
Definition generate_report_exn (sheet : result (list RawRow)) : exn :=
  match sheet with
  | Raise e => e
  | Ok [] => KeyError "status"
  | Ok (_ :: _) => NameError "Ticket"
  end.

(** Sample data: a world whose PDF destination cannot be written. *)
Definition pdf_unwritable_world : World :=
  {| read_excel := fun _ => Ok [sample_row];
     write_excel := fun _ => Ok tt;
     pdf_output := fun _ => Raise IOError;
     set_header := fun _ _ => Ok tt;
     set_content := fun _ => Ok tt;
     open_rb := fun _ => Ok tt;
     smtp_connect := fun _ _ => Ok tt;
     smtp_login := fun _ _ => Ok tt;
     smtp_send_message := Ok tt;
     smtp_quit := Ok tt |}.

(** Sample data: a world whose email library refuses every 'Subject'. *)
Definition subject_refusing_world : World :=
  {| read_excel := fun _ => Ok [sample_row];
     write_excel := fun _ => Ok tt;
     pdf_output := fun _ => Ok tt;
     set_header := fun name _ =>
       if String.eqb name "Subject" then Raise ValueError else Ok tt;
     set_content := fun _ => Ok tt;
     open_rb := fun _ => Ok tt;
     smtp_connect := fun _ _ => Ok tt;
     smtp_login := fun _ _ => Ok tt;
     smtp_send_message := Ok tt;
     smtp_quit := Ok tt |}.

(** * Properties *)

(** ** Rounding to binary64 *)

Module Binary64Facts.
Import Binary64.

Lemma rne_le (n d z : Z) : 0 < d -> n <= z * d -> rne n d <= z.
Proof.
  intros Hd Hn. unfold rne.
  pose proof (Z.div_mod n d ltac:(lia)) as Hdm.
  pose proof (Z.mod_pos_bound n d Hd) as Hm.
  assert (Hq : n / d <= z) by (apply Z.div_le_upper_bound; lia).
  destruct (Z.compare_spec (2 * (n mod d)) d) as [He|Hl|Hg].
  - destruct (Z.even (n / d)); [lia|].
    assert (n / d <> z) by nia. lia.
  - lia.
  - assert (n / d <> z) by nia. lia.
Qed.

Lemma rne_nonneg (n d : Z) : 0 < d -> 0 <= n -> 0 <= rne n d.
Proof.
  intros Hd Hn. unfold rne.
  assert (0 <= n / d) by (apply Z.div_pos; lia).
  destruct (2 * (n mod d) ?= d); [destruct (Z.even (n / d))| |]; lia.
Qed.

Lemma ilog2_lower (n d : Z) :
  0 < n -> 0 < d -> 0 <= ilog2 n d -> d * 2 ^ ilog2 n d <= n.
Proof.
  intros Hn Hd. unfold ilog2.
  set (k := Z.log2 n - Z.log2 d).
  destruct (Z.leb_spec 0 k) as [Hk|Hk].
  - destruct (Z.leb_spec (d * 2 ^ k) n) as [H|H]; [intros _; exact H|].
    intros Hk1.
    pose proof (Z.log2_spec n Hn) as [Hn1 _].
    pose proof (Z.log2_spec d Hd) as [_ Hd2].
    pose proof (Z.log2_nonneg d) as Hld.
    assert (Hpow : 2 ^ Z.log2 n = 2 ^ (Z.succ (Z.log2 d)) * 2 ^ (k - 1)).
    { rewrite <- Z.pow_add_r by lia. f_equal. unfold k. lia. }
    assert (0 < 2 ^ (k - 1)) by (apply Z.pow_pos_nonneg; lia).
    nia.
  - destruct (Z.leb_spec d (n * 2 ^ (- k))); lia.
Qed.

Lemma ulp_exp_nonpos (n d B : Z) :
  0 < n -> 0 < d -> B < 2 ^ 53 -> n <= B * d -> ulp_exp n d <= 0.
Proof.
  intros Hn Hd HB Hle. unfold ulp_exp.
  apply Z.max_lub; [|lia].
  destruct (Z.le_gt_cases (ilog2 n d) 52) as [H|H]; [lia|].
  pose proof (ilog2_lower n d Hn Hd ltac:(lia)) as Hl.
  assert (2 ^ 53 <= 2 ^ ilog2 n d) by (apply Z.pow_le_mono_r; lia).
  nia.
Qed.

Lemma RN_nonneg (q : Q) : (0 <= RN q)%Q.
Proof.
  unfold RN. destruct (Z.leb_spec (Qnum q) 0) as [H|H]; [apply Qle_refl|].
  set (e := ulp_exp (Qnum q) (Z.pos (Qden q))).
  destruct (Z.leb_spec e 0) as [He|He]; rewrite Qred_correct; unfold Qle;
    cbn [Qnum Qden inject_Z]; rewrite !Z.mul_1_r; change (0 * _) with 0.
  - apply rne_nonneg; [lia|]. apply Z.mul_nonneg_nonneg; [lia|].
    apply Z.pow_nonneg; lia.
  - assert (0 < 2 ^ e) by (apply Z.pow_pos_nonneg; lia).
    apply Z.mul_nonneg_nonneg; [|lia].
    apply rne_nonneg; [|lia]. apply Z.mul_pos_pos; lia.
Qed.

Lemma RN_le_int (q : Q) (B : Z) :
  0 <= B < 2 ^ 53 -> (q <= inject_Z B)%Q -> (RN q <= inject_Z B)%Q.
Proof.
  intros HB Hq. unfold RN.
  destruct (Z.leb_spec (Qnum q) 0) as [H|H].
  - unfold Qle; cbn [Qnum Qden inject_Z]. lia.
  - unfold Qle in Hq; cbn [Qnum Qden inject_Z] in Hq. rewrite Z.mul_1_r in Hq.
    set (e := ulp_exp (Qnum q) (Z.pos (Qden q))).
    assert (He : e <= 0) by (apply (ulp_exp_nonpos _ _ B); lia).
    destruct (Z.leb_spec e 0) as [_|He']; [|lia].
    rewrite Qred_correct. unfold Qle; cbn [Qnum Qden inject_Z].
    assert (Hp : 0 < 2 ^ (- e)) by (apply Z.pow_pos_nonneg; lia).
    rewrite Z2Pos.id by exact Hp. rewrite Z.mul_1_r.
    apply rne_le; [lia|]. nia.
Qed.

Lemma truediv_le_1 (a b : Z) : 0 <= a <= b -> 0 < b -> (truediv a b <= 1)%Q.
Proof.
  intros Ha Hb. unfold truediv. apply (RN_le_int _ 1); [lia|].
  unfold Qle; cbn [Qnum Qden inject_Z]. rewrite Z2Pos.id by lia. lia.
Qed.

Lemma fmul_100_le (x : Q) : (x <= 1)%Q -> (fmul x (inject_Z 100) <= 100)%Q.
Proof.
  intros Hx. unfold fmul. apply (RN_le_int _ 100); [lia|].
  setoid_replace (inject_Z 100) with (1 * inject_Z 100)%Q at 2 by ring.
  apply Qmult_le_compat_r; [exact Hx|]. unfold Qle; cbn; lia.
Qed.

Lemma round2_le_100 (x : Q) : (x <= 100)%Q -> (round2 x <= 100)%Q.
Proof.
  intros Hx. unfold round2. apply (RN_le_int _ 100); [lia|].
  unfold Qle in *; cbn [Qnum Qden inject_Z] in *.
  assert (rne (Qnum x * 100) (Z.pos (Qden x)) <= 10000) by (apply rne_le; lia).
  lia.
Qed.

Lemma round2_nonneg (x : Q) : (0 <= round2 x)%Q.
Proof. apply RN_nonneg. Qed.

(** [rne] returns a nearest integer, the even one in case of a tie. *)
Lemma rne_nearest (n d : Z) : 0 < d -> Z.abs (2 * n - 2 * d * rne n d) <= d.
Proof.
  intros Hd. unfold rne.
  pose proof (Z.div_mod n d ltac:(lia)) as Hdm.
  pose proof (Z.mod_pos_bound n d Hd) as Hm.
  destruct (Z.compare_spec (2 * (n mod d)) d) as [He|Hl|Hg];
    [destruct (Z.even (n / d))| |]; nia.
Qed.

Lemma rne_tie_even (n d : Z) :
  0 < d -> Z.abs (2 * n - 2 * d * rne n d) = d -> Z.even (rne n d) = true.
Proof.
  intros Hd. unfold rne.
  pose proof (Z.div_mod n d ltac:(lia)) as Hdm.
  pose proof (Z.mod_pos_bound n d Hd) as Hm.
  destruct (Z.compare_spec (2 * (n mod d)) d) as [He|Hl|Hg].
  - destruct (Z.even (n / d)) eqn:E; intros _; [exact E|].
    rewrite Z.even_add, E. reflexivity.
  - intros H. exfalso. nia.
  - intros H. exfalso. nia.
Qed.

Lemma rne_ge (n d z : Z) : 0 < d -> z * d <= n -> z <= rne n d.
Proof.
  intros Hd Hn. unfold rne.
  assert (Hq : z <= n / d) by (apply Z.div_le_lower_bound; lia).
  destruct (2 * (n mod d) ?= d); [destruct (Z.even (n / d))| |]; lia.
Qed.

(** [ilog2 n d] is the binary exponent of [n / d]:
    [2 ^ L <= n / d < 2 ^ (L + 1)]. *)
Lemma ilog2_bounds (n d : Z) :
  0 < n -> 0 < d ->
  let L := ilog2 n d in
  d * 2 ^ Z.max 0 L <= n * 2 ^ Z.max 0 (- L) < 2 * (d * 2 ^ Z.max 0 L).
Proof.
  intros Hn Hd. unfold ilog2.
  pose proof (Z.log2_spec n Hn) as [Hn1 Hn2].
  pose proof (Z.log2_spec d Hd) as [Hd1 Hd2].
  pose proof (Z.log2_nonneg n) as Hln. pose proof (Z.log2_nonneg d) as Hld.
  set (k := Z.log2 n - Z.log2 d) in *.
  rewrite Z.pow_succ_r in Hn2, Hd2 by lia.
  destruct (Z.leb_spec 0 k) as [Hk|Hk].
  - assert (Hnk : 2 ^ Z.log2 n = 2 ^ Z.log2 d * 2 ^ k).
    { replace (Z.log2 n) with (Z.log2 d + k) at 1 by (unfold k; lia).
      apply Z.pow_add_r; lia. }
    assert (0 < 2 ^ k) by (apply Z.pow_pos_nonneg; lia).
    destruct (Z.leb_spec (d * 2 ^ k) n) as [H1|H1]; cbv zeta.
    + rewrite (Z.max_r 0 k), (Z.max_l 0 (- k)) by lia. rewrite Z.pow_0_r. nia.
    + destruct (Z.eq_dec k 0) as [E|E].
      * rewrite E in *. change (Z.max 0 (0 - 1)) with 0.
        change (Z.max 0 (- (0 - 1))) with 1. change (2 ^ 1) with 2.
        rewrite Z.pow_0_r in *.
        lia.
      * rewrite (Z.max_r 0 (k - 1)), (Z.max_l 0 (- (k - 1))) by lia. rewrite Z.pow_0_r.
        assert (Hk2 : 2 ^ k = 2 * 2 ^ (k - 1)).
        { replace k with (Z.succ (k - 1)) at 1 by lia. apply Z.pow_succ_r. lia. }
        assert (0 < 2 ^ (k - 1)) by (apply Z.pow_pos_nonneg; lia).
        nia.
  - assert (Hdk : 2 ^ Z.log2 d = 2 ^ Z.log2 n * 2 ^ (- k)).
    { replace (Z.log2 d) with (Z.log2 n + - k) at 1 by (unfold k; lia).
      apply Z.pow_add_r; lia. }
    assert (0 < 2 ^ (- k)) by (apply Z.pow_pos_nonneg; lia).
    destruct (Z.leb_spec d (n * 2 ^ (- k))) as [H1|H1]; cbv zeta.
    + rewrite (Z.max_l 0 k), (Z.max_r 0 (- k)) by lia. rewrite Z.pow_0_r. nia.
    + rewrite (Z.max_l 0 (k - 1)), (Z.max_r 0 (- (k - 1))) by lia. rewrite Z.pow_0_r.
      replace (- (k - 1)) with (Z.succ (- k)) by lia. rewrite Z.pow_succ_r by lia.
      nia.
Qed.

(** [RN] is rounding to nearest with a 53-bit significand: for a positive
    [q] whose unit in the last place is [2 ^ e] with [e <= 0], the result is
    [m * 2 ^ e] for the integer [m] nearest to [q / 2 ^ e]; [m] has at most
    53 bits, and exactly 53 bits unless the result is subnormal. *)
Lemma RN_nearest (q : Q) :
  let n := Qnum q in
  let d := Z.pos (Qden q) in
  let e := ulp_exp n d in
  let m := rne (n * 2 ^ (- e)) d in
  0 < n -> e <= 0 ->
  (RN q == Qmake m (Z.to_pos (2 ^ (- e))))%Q /\
  Z.abs (2 * (n * 2 ^ (- e)) - 2 * d * m) <= d /\
  0 <= m <= 2 ^ 53 /\
  (-1074 < e -> 2 ^ 52 <= m).
Proof.
  intros n d e m Hn He.
  assert (Hd : 0 < d) by (unfold d; lia).
  split.
  { unfold RN. fold n d e.
    destruct (Z.leb_spec n 0) as [H|_]; [lia|].
    destruct (Z.leb_spec e 0) as [_|H]; [|lia].
    apply Qred_correct. }
  split; [apply rne_nearest; exact Hd|].
  pose proof (ilog2_bounds n d Hn Hd) as Hb. cbv zeta in Hb.
  set (L := ilog2 n d) in *.
  assert (HeL : e = Z.max (L - 52) (-1074)) by reflexivity.
  assert (Hs : 0 < 2 ^ (- e)) by (apply Z.pow_pos_nonneg; lia).
  assert (HL52 : L <= 52) by lia.
  assert (Hup : n * 2 ^ (- e) <= 2 ^ 53 * d).
  { assert (Hmono : 2 ^ (- e) <= 2 ^ (52 - L)) by (apply Z.pow_le_mono_r; lia).
    destruct (Z.le_gt_cases 0 L) as [HL|HL].
    - rewrite (Z.max_r 0 L), (Z.max_l 0 (- L)), Z.pow_0_r in Hb by lia.
      assert (Hp : 2 ^ L * 2 ^ (52 - L) = 2 ^ 52).
      { rewrite <- Z.pow_add_r by lia. apply f_equal. lia. }
      assert (0 < 2 ^ L) by (apply Z.pow_pos_nonneg; lia).
      change (2 ^ 53) with (2 * 2 ^ 52). nia.
    - rewrite (Z.max_l 0 L), (Z.max_r 0 (- L)), Z.pow_0_r in Hb by lia.
      assert (Hp : 2 ^ (52 - L) = 2 ^ 52 * 2 ^ (- L)).
      { rewrite <- Z.pow_add_r by lia. apply f_equal. lia. }
      assert (0 < 2 ^ (- L)) by (apply Z.pow_pos_nonneg; lia).
      change (2 ^ 53) with (2 * 2 ^ 52). nia. }
  split.
  - split; [apply rne_nonneg; nia|apply rne_le; [exact Hd|exact Hup]].
  - intros Hnorm. assert (Ee : - e = 52 - L) by lia.
    apply rne_ge; [exact Hd|]. rewrite Ee.
    destruct (Z.le_gt_cases 0 L) as [HL|HL].
    + rewrite (Z.max_r 0 L), (Z.max_l 0 (- L)), Z.pow_0_r in Hb by lia.
      assert (Hp : 2 ^ L * 2 ^ (52 - L) = 2 ^ 52).
      { rewrite <- Z.pow_add_r by lia. apply f_equal. lia. }
      assert (0 < 2 ^ (52 - L)) by (apply Z.pow_pos_nonneg; lia).
      nia.
    + rewrite (Z.max_l 0 L), (Z.max_r 0 (- L)), Z.pow_0_r in Hb by lia.
      assert (Hp : 2 ^ (52 - L) = 2 ^ 52 * 2 ^ (- L)).
      { rewrite <- Z.pow_add_r by lia. apply f_equal. lia. }
      rewrite Hp. nia.
Qed.
(** The module computes what the standard library's IEEE 754 operations
    compute, for every rate of up to 64 tickets and for a sample of larger
    counts, 23 closed tickets out of 160 among them. *)
Example rates_agree_with_SpecFloat :
  all_rates_agree 64 = true /\
  forallb (fun ct => agrees_with_SpecFloat (fst ct) (snd ct)) sample_rates = true.
Proof. split; vm_compute; reflexivity. Qed.

End Binary64Facts.

(** ** Frames built from tickets *)

Lemma select_by_column {A : Type} (f : A -> bool) (l : list A) :
  map fst (filter snd (combine l (map f l))) = filter f l.
Proof.
  induction l as [|a l IH]; [reflexivity|].
  cbn [map combine filter snd]. destruct (f a); cbn [map fst]; rewrite IH; reflexivity.
Qed.

Lemma combine_columns {A B C : Type} (f : A -> B) (g : A -> C) (l : list A) :
  combine (map f l) (map g l) = map (fun a => (f a, g a)) l.
Proof. induction l as [|a l IH]; cbn; [|rewrite IH]; reflexivity. Qed.

Lemma count_map {A B : Type} (p : B -> bool) (f : A -> B) (l : list A) :
  count p (map f l) = count (fun a => p (f a)) l.
Proof.
  unfold count. induction l as [|a l IH]; [reflexivity|].
  cbn [map filter]. destruct (p (f a)); cbn [List.length]; rewrite IH; reflexivity.
Qed.

Lemma count_filter {A : Type} (p q : A -> bool) (l : list A) :
  count p (filter q l) = count (fun a => q a && p a) l.
Proof.
  unfold count. induction l as [|a l IH]; [reflexivity|].
  cbn [filter]. destruct (q a); cbn [andb filter]; [destruct (p a); cbn [List.length]|];
    rewrite IH; reflexivity.
Qed.

Lemma count_le_length {A : Type} (p : A -> bool) (l : list A) :
  (count p l <= List.length l)%nat.
Proof. apply filter_length_le. Qed.

Lemma count_all {A : Type} (p : A -> bool) (l : list A) :
  (forall a, In a l -> p a = true) -> count p l = List.length l.
Proof.
  unfold count. induction l as [|a l IH]; intros H; [reflexivity|].
  cbn [filter]. rewrite (H a) by (left; reflexivity). cbn [List.length].
  rewrite IH; [reflexivity|]. intros b Hb. apply H. right. exact Hb.
Qed.

(** A frame built from at least one ticket has the five attribute columns. *)
Lemma getitem_nonempty {A : Type} (t : Tickets) (ts : list Tickets) (label : string)
    (field : Tickets -> A) :
  In label attribute_names ->
  getitem (DataFrame_of_dicts (t :: ts)) label field = Ok (map field (t :: ts)).
Proof.
  intros Hin. unfold getitem. cbn [DataFrame_of_dicts columns rows].
  replace (existsb (String.eqb label) attribute_names) with true; [reflexivity|].
  symmetry. apply existsb_exists. exists label. split; [exact Hin|apply String.eqb_refl].
Qed.

(** A frame built from no ticket has no column. *)
Lemma getitem_empty {A : Type} (label : string) (field : Tickets -> A) :
  getitem (DataFrame_of_dicts []) label field = Raise (KeyError label).
Proof. reflexivity. Qed.

(** The status filter keeps the tickets whose status is 'closed'. *)
Lemma closed_rows_nonempty (t : Tickets) (ts : list Tickets) :
  closed_rows (DataFrame_of_dicts (t :: ts)) =
  Ok {| columns := attribute_names;
        date_closed_dtype := date_closed_dtype (DataFrame_of_dicts (t :: ts));
        rows := filter is_closed (t :: ts) |}.
Proof.
  unfold closed_rows. rewrite getitem_nonempty by (cbn; tauto).
  cbn [bind]. unfold select. cbn [columns rows DataFrame_of_dicts].
  rewrite map_map. rewrite (select_by_column (fun x => String.eqb "closed" (status x))).
  reflexivity.
Qed.

(** ** closure_rate *)

(** The closed count never exceeds the total. *)
Lemma closed_count_le_length (ts : list Tickets) :
  (closed_count ts <= List.length ts)%nat.
Proof. apply count_le_length. Qed.

(** [closure_rate] on at least one ticket, in terms of the two counts. *)
Lemma closure_rate_cons (t : Tickets) (ts : list Tickets) :
  closure_rate (TicketReport_init (t :: ts)) =
  Ok (PyFloat (Binary64.round2
        (Binary64.fmul
           (Binary64.truediv (Z.of_nat (closed_count (t :: ts)))
                             (Z.of_nat (List.length (t :: ts))))
           (inject_Z 100)))).
Proof.
  unfold closure_rate. cbn [TicketReport_init df].
  rewrite closed_rows_nonempty. cbn [bind]. unfold len. cbn [rows DataFrame_of_dicts].
  reflexivity.
Qed.

(** C1, as the code has it: for every non-empty ticket sequence,
    [closure_rate()] returns [round((closedCount / totalCount) * 100, 2)],
    evaluated in binary64 in this order: the quotient of the two counts is
    rounded to a double, the product with 100 is rounded to a double, and
    the result is rounded to two decimals.  [closedCount] is the number of
    tickets whose status is 'closed' and [totalCount] the length of the
    sequence. *)
Theorem closure_rate_nonempty (ts : list Tickets) :
  ts <> [] ->
  closure_rate (TicketReport_init ts) =
  Ok (PyFloat (Binary64.round2
        (Binary64.fmul
           (Binary64.truediv (Z.of_nat (closed_count ts)) (Z.of_nat (List.length ts)))
           (inject_Z 100)))).
Proof.
  destruct ts as [|t ts]; [intros H; contradiction H; reflexivity|].
  intros _. apply closure_rate_cons.
Qed.

Lemma closure_rate_nonempty_witness :
  [closed_ticket; open_ticket; open_ticket] <> [] /\
  closure_rate (TicketReport_init [closed_ticket; open_ticket; open_ticket]) =
  Ok (PyFloat (Binary64.round2
        (Binary64.fmul
           (Binary64.truediv
              (Z.of_nat (closed_count [closed_ticket; open_ticket; open_ticket]))
              (Z.of_nat (List.length [closed_ticket; open_ticket; open_ticket])))
           (inject_Z 100)))).
Proof.
  split; [discriminate|].
  apply (closure_rate_nonempty [closed_ticket; open_ticket; open_ticket]).
  discriminate.
Defined.

(** One closed ticket out of three: 33.33. *)
Example closure_rate_one_of_three :
  closure_rate (TicketReport_init [closed_ticket; open_ticket; open_ticket]) =
  Ok (PyFloat (Binary64.RN (3333 # 100))).
Proof. vm_compute. reflexivity. Qed.

(** C1 as stated fails on 160 tickets of which 23 are closed: the code
    returns 14.37, because [(23 / 160) * 100] is the double just below
    14.375, while [round(100 * 23 / 160, 2)] is 14.38, in Python's float
    arithmetic and in exact arithmetic alike. *)
Lemma closure_rate_differs_from_formula :
  closure_rate (TicketReport_init tickets_23_of_160)
    = Ok (PyFloat (Binary64.RN (1437 # 100))) /\
  closure_rate_spec tickets_23_of_160 = PyFloat (Binary64.RN (1438 # 100)) /\
  closure_rate_exact tickets_23_of_160 = (1438 # 100)%Q /\
  closure_rate (TicketReport_init tickets_23_of_160)
    <> Ok (closure_rate_spec tickets_23_of_160).
Proof.
  assert (H1 : closure_rate (TicketReport_init tickets_23_of_160)
               = Ok (PyFloat (Binary64.RN (1437 # 100))))
    by (vm_compute; reflexivity).
  assert (H2 : closure_rate_spec tickets_23_of_160 = PyFloat (Binary64.RN (1438 # 100)))
    by (vm_compute; reflexivity).
  split; [exact H1|]. split; [exact H2|]. split; [vm_compute; reflexivity|].
  rewrite H1, H2. vm_compute. intros H. discriminate H.
Qed.

(** C10: for every non-empty ticket sequence, [closure_rate()] returns a
    float between 0 and 100 inclusive. *)
Theorem closure_rate_bounds (ts : list Tickets) :
  ts <> [] ->
  exists x : Q,
    closure_rate (TicketReport_init ts) = Ok (PyFloat x) /\ (0 <= x <= 100)%Q.
Proof.
  destruct ts as [|t ts]; [intros H; contradiction H; reflexivity|]. intros _.
  eexists. split; [apply closure_rate_cons|].
  split; [apply Binary64Facts.round2_nonneg|].
  apply Binary64Facts.round2_le_100, Binary64Facts.fmul_100_le.
  apply Binary64Facts.truediv_le_1.
  - pose proof (closed_count_le_length (t :: ts)). lia.
  - cbn [List.length]. lia.
Qed.

Lemma closure_rate_bounds_witness :
  exists x : Q,
    closure_rate (TicketReport_init [closed_ticket; open_ticket]) = Ok (PyFloat x)
    /\ (0 <= x <= 100)%Q.
Proof. apply (closure_rate_bounds [closed_ticket; open_ticket]). discriminate. Defined.

(** ** The empty sequence *)

(** C2, the defect: on the empty ticket sequence [summary()] does not return
    the all-zero summary.  The frame built from no ticket has no column, and
    the lookup of 'status' raises KeyError. *)
Theorem summary_empty_raises :
  summary (TicketReport_init []) = Raise (KeyError "status").
Proof. reflexivity. Qed.

(** On the empty sequence every aggregation raises, [closure_rate] before
    it reaches its guard against a zero total. *)
Lemma aggregations_empty_raise :
  closure_rate (TicketReport_init []) = Raise (KeyError "status") /\
  tickets_per_day (TicketReport_init []) = Raise (KeyError "date_opened") /\
  closed_tickets_per_day (TicketReport_init []) = Raise (KeyError "status") /\
  category_distribution (TicketReport_init []) = Raise (KeyError "category").
Proof. repeat split; reflexivity. Qed.

(** ** Grouping by day *)

Lemma sum_counts_cons {K : Type} (p : K * nat) (m : list (K * nat)) :
  sum_counts (p :: m) = (snd p + sum_counts m)%nat.
Proof. reflexivity. Qed.

Lemma sum_counts_bump (d : date) (k : nat) (m : list (date * nat)) :
  sum_counts (bump d k m) = (k + sum_counts m)%nat.
Proof.
  induction m as [|[d' n] m IH]; [cbn; lia|].
  cbn [bump]. destruct (d <? d'); [reflexivity|].
  destruct (d =? d'); rewrite !sum_counts_cons; cbn [snd]; [|rewrite IH]; lia.
Qed.

(** The counts of a grouping sum to the number of rows that have a key and
    a non-null counted cell. *)
Lemma sum_counts_group_count (kvs : list (option date * scalar)) :
  sum_counts (group_count kvs) =
  count (fun kv => is_some (fst kv) && notna (snd kv)) kvs.
Proof.
  unfold count. induction kvs as [|[[d|] v] kvs IH]; [reflexivity| |].
  - cbn [group_count filter fst snd is_some andb]. rewrite sum_counts_bump, IH.
    destruct (notna v); reflexivity.
  - cbn [group_count filter fst snd is_some andb]. exact IH.
Qed.

(** A row without a key changes no group. *)
Lemma group_count_skip (l1 l2 : list (option date * scalar)) (v : scalar) :
  group_count (l1 ++ (None, v) :: l2) = group_count (l1 ++ l2).
Proof.
  induction l1 as [|[[d|] w] l1 IH]; [reflexivity| |]; cbn [app group_count];
    rewrite IH; reflexivity.
Qed.

(** The keys of a grouping are in strictly ascending order. *)
Lemma bump_sorted (d : date) (k : nat) (m : list (date * nat)) :
  StronglySorted Z.lt (map fst m) -> StronglySorted Z.lt (map fst (bump d k m)).
Proof.
  induction m as [|[d' n] m IH]; intros Hs.
  - repeat constructor.
  - cbn [bump]. apply StronglySorted_inv in Hs as [Hs Hall].
    destruct (Z.ltb_spec d d') as [Hlt|Hge].
    + cbn [map fst]. constructor; [constructor; assumption|].
      constructor; [exact Hlt|].
      cbn [map fst] in Hall. eapply Forall_impl; [|exact Hall]. cbn. lia.
    + destruct (Z.eqb_spec d d') as [Heq|Hne].
      * cbn [map fst]. constructor; assumption.
      * cbn [map fst]. constructor; [apply IH; exact Hs|].
        clear IH Hs. induction m as [|[d'' n'] m IHm].
        { cbn. constructor; [lia|constructor]. }
        { cbn [bump]. cbn [map fst] in Hall. inversion Hall as [|? ? Hd Hall']; subst.
          destruct (d <? d'').
          - cbn [map fst]. constructor; [lia|]. constructor; assumption.
          - destruct (d =? d''); cbn [map fst]; constructor; try assumption.
            apply IHm. exact Hall'. }
Qed.

Lemma group_count_sorted (kvs : list (option date * scalar)) :
  StronglySorted Z.lt (map fst (group_count kvs)).
Proof.
  induction kvs as [|[[d|] v] kvs IH]; cbn [group_count];
    [constructor|apply bump_sorted; exact IH|exact IH].
Qed.

(** [tickets_per_day] on at least one ticket. *)
Lemma tickets_per_day_cons (t : Tickets) (ts : list Tickets) :
  tickets_per_day (TicketReport_init (t :: ts)) =
  Ok (group_count
        (map (fun x => (option_map date_of (date_opened x), ticket_id x)) (t :: ts))).
Proof.
  unfold tickets_per_day, groupby_count_ticket_id. cbn [TicketReport_init df].
  rewrite !getitem_nonempty by (cbn; tauto). cbn [bind dt_date].
  rewrite map_map, combine_columns. reflexivity.
Qed.

(** [closed_tickets_per_day] on at least one ticket, one of which (closed or
    not) has a 'date_closed' other than [None]. *)
Lemma closed_tickets_per_day_dated (t : Tickets) (ts : list Tickets) :
  existsb (fun x => is_some (date_closed x)) (t :: ts) = true ->
  closed_tickets_per_day (TicketReport_init (t :: ts)) =
  Ok (group_count
        (map (fun x => (option_map date_of (as_datetime (date_closed x)), ticket_id x))
             (filter is_closed (t :: ts)))).
Proof.
  intros Hd. unfold closed_tickets_per_day, groupby_count_ticket_id.
  cbn [TicketReport_init df]. rewrite closed_rows_nonempty. cbn [bind].
  unfold getitem. cbn [columns rows date_closed_dtype DataFrame_of_dicts].
  rewrite Hd. cbn [existsb attribute_names String.eqb Ascii.eqb Bool.eqb orb andb bind dt_date].
  rewrite !map_map.
  rewrite (combine_columns (fun x => option_map date_of (as_datetime (date_closed x)))).
  reflexivity.
Qed.

(** When every 'date_closed' is [None] the column holds only [None], its
    dtype is [object], and the [.dt] accessor raises. *)
Lemma closed_tickets_per_day_undated (t : Tickets) (ts : list Tickets) :
  existsb (fun x => is_some (date_closed x)) (t :: ts) = false ->
  closed_tickets_per_day (TicketReport_init (t :: ts)) = Raise (AttributeError "dt").
Proof.
  intros Hd. unfold closed_tickets_per_day.
  cbn [TicketReport_init df]. rewrite closed_rows_nonempty. cbn [bind].
  unfold getitem. cbn [columns rows date_closed_dtype DataFrame_of_dicts].
  rewrite Hd. reflexivity.
Qed.

(** C4, as the code has it: for every non-empty ticket sequence, the counts
    of [tickets_per_day()] sum to the number of tickets that have an opened
    date and a non-null id, hence to the total when every ticket has both;
    and when some ticket has a close date (a 'date_closed' other than
    [None]), the counts of [closed_tickets_per_day()] sum to the number of
    tickets with status 'closed' that have a close date (a timestamp) and a
    non-null id. *)
Theorem per_day_counts_sum (ts : list Tickets) :
  ts <> [] ->
  (exists m,
      tickets_per_day (TicketReport_init ts) = Ok m /\
      sum_counts m = count (fun t => is_some (date_opened t) && notna (ticket_id t)) ts /\
      ((forall t, In t ts -> is_some (date_opened t) && notna (ticket_id t) = true) ->
       sum_counts m = List.length ts)) /\
  (existsb (fun t => is_some (date_closed t)) ts = true ->
   exists m,
      closed_tickets_per_day (TicketReport_init ts) = Ok m /\
      sum_counts m =
        count (fun t => is_closed t
                        && (is_some (as_datetime (date_closed t)) && notna (ticket_id t))) ts).
Proof.
  destruct ts as [|t ts]; [intros H; contradiction H; reflexivity|]. intros _.
  assert (Hopen : forall f : Tickets -> option Timestamp, forall l : list Tickets,
            sum_counts (group_count (map (fun x => (option_map date_of (f x), ticket_id x)) l))
            = count (fun x => is_some (f x) && notna (ticket_id x)) l).
  { intros f l. rewrite sum_counts_group_count, count_map. unfold count. f_equal.
    apply filter_ext. intros x. cbn [fst snd]. destruct (f x); reflexivity. }
  split.
  - eexists. split; [apply tickets_per_day_cons|]. split; [apply Hopen|].
    intros Hall. rewrite Hopen. apply count_all. exact Hall.
  - intros Hd. eexists. split; [apply closed_tickets_per_day_dated; exact Hd|].
    rewrite (Hopen (fun x => as_datetime (date_closed x))). apply count_filter.
Qed.

Lemma per_day_counts_sum_witness :
  [closed_ticket; undated_closed_ticket] <> [] /\
  (exists m,
      tickets_per_day (TicketReport_init [closed_ticket; undated_closed_ticket]) = Ok m /\
      sum_counts m = 2%nat) /\
  (exists m,
      closed_tickets_per_day (TicketReport_init [closed_ticket; undated_closed_ticket]) = Ok m /\
      sum_counts m = 1%nat).
Proof.
  split; [discriminate|].
  destruct (per_day_counts_sum [closed_ticket; undated_closed_ticket]) as [H1 H2];
    [discriminate|].
  split.
  - destruct H1 as [m [Hm [Hs _]]]. exists m. split; [exact Hm|exact Hs].
  - destruct H2 as [m [Hm Hs]]; [reflexivity|]. exists m. split; [exact Hm|exact Hs].
Defined.

(** C4 as stated fails on a dated and an undated closed ticket: both have
    status 'closed', so the closed count is 2, but the counts of
    [closed_tickets_per_day()] sum to 1. *)
Lemma closed_per_day_sum_below_closed_count :
  closed_tickets_per_day (TicketReport_init [closed_ticket; undated_closed_ticket])
    = Ok [(19724, 1%nat)] /\
  sum_counts [(19724, 1%nat)] = 1%nat /\
  closed_count [closed_ticket; undated_closed_ticket] = 2%nat /\
  ~ (forall ts m, closed_tickets_per_day (TicketReport_init ts) = Ok m ->
                  sum_counts m = closed_count ts).
Proof.
  assert (H : closed_tickets_per_day (TicketReport_init [closed_ticket; undated_closed_ticket])
              = Ok [(19724, 1%nat)]) by (vm_compute; reflexivity).
  split; [exact H|]. split; [reflexivity|]. split; [reflexivity|].
  intros Hall. specialize (Hall _ _ H). vm_compute in Hall. discriminate Hall.
Qed.

(** ** A closed ticket without a close date *)

(** Construction lower-cases 'Closed' and keeps the absent close date as
    [None]. *)
Lemma undated_closed_ticket_constructed :
  Tickets_init (Str "T-undated") (DateTime jan_1) Blank (Str "network") (Str "Closed")
  = Ok undated_closed_ticket.
Proof. reflexivity. Qed.

(** C3, the defect: for the sequence that consists of one ticket with
    status 'Closed' and no close date, [closed_tickets_per_day()] and
    [summary()] raise AttributeError: the 'date_closed' column holds only
    [None], so it is not a datetime column and has no [.dt] accessor.  No
    closed count is reported and no (empty) grouping is returned. *)
Theorem undated_closed_ticket_alone_raises :
  Tickets_init (Str "T-undated") (DateTime jan_1) Blank (Str "network") (Str "Closed")
    = Ok undated_closed_ticket /\
  closed_tickets_per_day (TicketReport_init [undated_closed_ticket])
    = Raise (AttributeError "dt") /\
  summary (TicketReport_init [undated_closed_ticket]) = Raise (AttributeError "dt").
Proof. repeat split; reflexivity. Qed.

(** The same defect without any closed ticket: a sequence of open tickets
    has no close date either. *)
Lemma open_tickets_only_raise :
  summary (TicketReport_init [open_ticket; open_ticket]) = Raise (AttributeError "dt").
Proof. reflexivity. Qed.

(** Where some other ticket has a close date, the asymmetry is as the
    specification describes it: a ticket with status 'closed' and no close
    date adds one to the closed count and leaves every bucket of
    [closed_tickets_per_day()] as it is without that ticket. *)
Lemma undated_closed_ticket_asymmetry (pre post : list Tickets) (t : Tickets) :
  is_closed t = true ->
  as_datetime (date_closed t) = None ->
  existsb (fun x => is_some (date_closed x)) (pre ++ post) = true ->
  closed_count (pre ++ t :: post) = S (closed_count (pre ++ post)) /\
  exists m,
    closed_tickets_per_day (TicketReport_init (pre ++ t :: post)) = Ok m /\
    closed_tickets_per_day (TicketReport_init (pre ++ post)) = Ok m.
Proof.
  intros Hc Hd Hex. split.
  - unfold closed_count, count. rewrite !filter_app. cbn [filter]. rewrite Hc.
    rewrite !length_app. cbn [List.length]. lia.
  - assert (Hex' : existsb (fun x => is_some (date_closed x)) (pre ++ t :: post) = true).
    { rewrite existsb_app in *. cbn [existsb].
      apply orb_true_iff in Hex. apply orb_true_iff.
      destruct Hex as [Hex|Hex]; [left; exact Hex|right].
      rewrite Hex. apply orb_true_r. }
    assert (Hm : map (fun x => (option_map date_of (as_datetime (date_closed x)), ticket_id x))
                     (filter is_closed (pre ++ t :: post))
                 = map (fun x => (option_map date_of (as_datetime (date_closed x)), ticket_id x))
                       (filter is_closed pre)
                   ++ (None, ticket_id t)
                   :: map (fun x => (option_map date_of (as_datetime (date_closed x)), ticket_id x))
                          (filter is_closed post)).
    { rewrite filter_app. cbn [filter]. rewrite Hc. rewrite map_app. cbn [map].
      rewrite Hd. reflexivity. }
    eexists. split.
    + destruct (pre ++ t :: post) as [|a l] eqn:E; [destruct pre; discriminate E|].
      rewrite closed_tickets_per_day_dated by exact Hex'.
      rewrite Hm, group_count_skip. reflexivity.
    + destruct (pre ++ post) as [|a l] eqn:E; [discriminate Hex|].
      rewrite closed_tickets_per_day_dated by exact Hex.
      rewrite <- E, filter_app, map_app. reflexivity.
Qed.

(** ** Counting categories *)

Lemma scalar_eqb_eq (a b : scalar) : scalar_eqb a b = true <-> a = b.
Proof.
  destruct a as [|s|n], b as [|s'|n']; cbn; split; intros H;
    try reflexivity; try discriminate H.
  - apply String.eqb_eq in H. subst. reflexivity.
  - inversion H. apply String.eqb_refl.
  - apply Z.eqb_eq in H. subst. reflexivity.
  - inversion H. apply Z.eqb_refl.
Qed.

Lemma scalar_eqb_refl (a : scalar) : scalar_eqb a a = true.
Proof. apply scalar_eqb_eq. reflexivity. Qed.

Lemma scalar_eqb_sym (a b : scalar) : scalar_eqb a b = scalar_eqb b a.
Proof.
  destruct (scalar_eqb a b) eqn:E.
  - apply scalar_eqb_eq in E. subst. symmetry. apply scalar_eqb_refl.
  - destruct (scalar_eqb b a) eqn:E'; [|reflexivity].
    apply scalar_eqb_eq in E'. subst. rewrite scalar_eqb_refl in E. discriminate E.
Qed.

Lemma scalar_eqb_neq (a b : scalar) : scalar_eqb a b = false <-> a <> b.
Proof.
  split.
  - intros H E. subst. rewrite scalar_eqb_refl in H. discriminate H.
  - intros H. destruct (scalar_eqb a b) eqn:E; [|reflexivity].
    apply scalar_eqb_eq in E. contradiction.
Qed.

Lemma mem_In (c : scalar) (l : list scalar) : mem c l = true <-> In c l.
Proof.
  unfold mem. rewrite existsb_exists. split.
  - intros [x [Hin Heq]]. apply scalar_eqb_eq in Heq. subst. exact Hin.
  - intros Hin. exists c. split; [exact Hin|apply scalar_eqb_refl].
Qed.

Lemma mem_not_In (c : scalar) (l : list scalar) : mem c l = false <-> ~ In c l.
Proof.
  rewrite <- mem_In. destruct (mem c l); split; intros H; try reflexivity;
    try discriminate; try (intros H'; discriminate H'). contradiction H. reflexivity.
Qed.

Lemma occurrences_cons (x c : scalar) (col : list scalar) :
  occurrences x (c :: col) =
  ((if scalar_eqb x c then 1 else 0) + occurrences x col)%nat.
Proof.
  unfold occurrences, count. cbn [filter]. destruct (scalar_eqb x c); reflexivity.
Qed.

Lemma occurrences_pos (c : scalar) (col : list scalar) :
  In c col <-> (0 < occurrences c col)%nat.
Proof.
  induction col as [|a col IH].
  - cbn. split; [tauto|lia].
  - rewrite occurrences_cons. cbn [In]. destruct (scalar_eqb c a) eqn:E.
    + apply scalar_eqb_eq in E. subst. split; [lia|tauto].
    + apply scalar_eqb_neq in E. rewrite IH. split; [intros [H|H]; [congruence|lia]|].
      intros H. right. lia.
Qed.

Lemma occurrences_notna (c : scalar) (col : list scalar) :
  notna c = true -> occurrences c (filter notna col) = occurrences c col.
Proof.
  intros Hc. induction col as [|a col IH]; [reflexivity|].
  cbn [filter]. destruct (notna a) eqn:Ha.
  - rewrite !occurrences_cons, IH. reflexivity.
  - rewrite occurrences_cons, IH. destruct a; try discriminate Ha.
    destruct c; try discriminate Hc; reflexivity.
Qed.

Lemma In_distinct (x : scalar) (col : list scalar) : In x (distinct col) <-> In x col.
Proof.
  induction col as [|c col IH]; [reflexivity|].
  cbn [distinct In]. rewrite filter_In, IH.
  destruct (scalar_eqb x c) eqn:E.
  - apply scalar_eqb_eq in E. subst. split; intros _; left; reflexivity.
  - apply scalar_eqb_neq in E. cbn [negb]. split.
    + intros [H|[H _]]; [left; exact H|right; exact H].
    + intros [H|H]; [left; exact H|right; split; [exact H|reflexivity]].
Qed.

Lemma NoDup_distinct (col : list scalar) : NoDup (distinct col).
Proof.
  induction col as [|c col IH]; [constructor|].
  cbn [distinct]. constructor.
  - rewrite filter_In. intros [_ H]. rewrite scalar_eqb_refl in H. discriminate H.
  - apply NoDup_filter. exact IH.
Qed.

Lemma filter_filter {A : Type} (p q : A -> bool) (l : list A) :
  filter p (filter q l) = filter (fun a => q a && p a) l.
Proof.
  induction l as [|a l IH]; [reflexivity|].
  cbn [filter]. destruct (q a); cbn [andb filter]; [destruct (p a)|]; rewrite IH; reflexivity.
Qed.

Lemma filter_all {A : Type} (p : A -> bool) (l : list A) :
  (forall a, In a l -> p a = true) -> filter p l = l.
Proof.
  induction l as [|a l IH]; intros H; [reflexivity|].
  cbn [filter]. rewrite (H a) by (left; reflexivity).
  rewrite IH; [reflexivity|]. intros b Hb. apply H. right. exact Hb.
Qed.

(** A key that is present gets its count incremented. *)
Lemma tally_present (c : scalar) (m : list (scalar * nat)) :
  NoDup (map fst m) -> mem c (map fst m) = true ->
  tally c m = map (fun p => (fst p, ((if scalar_eqb (fst p) c then 1 else 0) + snd p)%nat)) m.
Proof.
  induction m as [|[c' n] m IH]; intros Hnd Hin; [discriminate Hin|].
  cbn [tally map fst snd]. cbn [map fst] in Hnd. inversion Hnd as [|? ? Hnot Hnd']; subst.
  rewrite (scalar_eqb_sym c' c). destruct (scalar_eqb c c') eqn:E.
  - apply scalar_eqb_eq in E. subst c'. f_equal.
    symmetry. erewrite map_ext_in; [apply map_id|].
    intros [a k] Ha. cbn [fst snd]. destruct (scalar_eqb a c) eqn:E'; [|reflexivity].
    apply scalar_eqb_eq in E'. subst a. exfalso. apply Hnot.
    apply in_map_iff. exists (c, k). split; [reflexivity|exact Ha].
  - f_equal. apply IH; [exact Hnd'|].
    unfold mem in *. cbn [map fst existsb] in Hin. rewrite E in Hin. exact Hin.
Qed.

(** A new key is appended behind the keys seen before. *)
Lemma tally_absent (c : scalar) (m : list (scalar * nat)) :
  mem c (map fst m) = false -> tally c m = m ++ [(c, 1%nat)].
Proof.
  induction m as [|[c' n] m IH]; intros Hin; [reflexivity|].
  unfold mem in *. cbn [map fst existsb] in Hin. apply orb_false_iff in Hin as [E Hin].
  cbn [tally app]. rewrite E. f_equal. apply IH. exact Hin.
Qed.

Lemma tally_NoDup (c : scalar) (m : list (scalar * nat)) :
  NoDup (map fst m) -> NoDup (map fst (tally c m)).
Proof.
  intros Hnd. destruct (mem c (map fst m)) eqn:E.
  - rewrite tally_present by assumption. rewrite map_map. cbn [fst]. exact Hnd.
  - rewrite tally_absent by assumption. rewrite map_app. cbn [map fst].
    apply NoDup_app_remove_l with (l := []). cbn [app].
    apply Permutation_NoDup with (l := c :: map fst m).
    + apply Permutation_cons_append.
    + constructor; [apply mem_not_In; exact E|exact Hnd].
Qed.

(** The counts after a column has been tallied into [acc]. *)
Lemma fold_tally (col : list scalar) :
  forall acc : list (scalar * nat),
    NoDup (map fst acc) ->
    fold_left (fun m c => tally c m) col acc =
    map (fun p => (fst p, (occurrences (fst p) col + snd p)%nat)) acc ++
    map (fun c => (c, occurrences c col))
        (filter (fun c => negb (mem c (map fst acc))) (distinct col)).
Proof.
  induction col as [|c col IH]; intros acc Hnd.
  - cbn [fold_left distinct filter map]. rewrite app_nil_r.
    symmetry. erewrite map_ext; [apply map_id|]. intros [a k]. reflexivity.
  - cbn [fold_left]. rewrite IH by (apply tally_NoDup; exact Hnd).
    cbn [distinct filter]. destruct (mem c (map fst acc)) eqn:E.
    + rewrite tally_present by assumption. cbn [negb].
      rewrite !map_map. cbn [fst snd]. f_equal.
      * apply map_ext. intros [a k]. cbn [fst snd]. rewrite occurrences_cons.
        f_equal. lia.
      * rewrite filter_filter.
        assert (Hf : forall x, In x (distinct col) ->
                  negb (scalar_eqb x c) && negb (mem x (map fst acc))
                  = negb (mem x (map fst acc))).
        { intros x _. destruct (scalar_eqb x c) eqn:Ex; [|reflexivity].
          apply scalar_eqb_eq in Ex. subst x. rewrite E. reflexivity. }
        rewrite (filter_ext_in _ _ _ Hf).
        apply map_ext_in. intros x Hx. apply filter_In in Hx as [_ Hx].
        rewrite occurrences_cons. destruct (scalar_eqb x c) eqn:Ex; [|reflexivity].
        apply scalar_eqb_eq in Ex. subst x. rewrite E in Hx. discriminate Hx.
    + rewrite tally_absent by assumption. cbn [negb map].
      rewrite !map_app. cbn [map fst snd]. rewrite <- app_assoc. cbn [app]. f_equal.
      * apply map_ext_in. intros [a k] Ha. cbn [fst snd]. rewrite occurrences_cons.
        destruct (scalar_eqb a c) eqn:Ea; [|reflexivity].
        apply scalar_eqb_eq in Ea. subst a. apply mem_not_In in E. exfalso. apply E.
        apply in_map_iff. exists (c, k). split; [reflexivity|exact Ha].
      * rewrite occurrences_cons, scalar_eqb_refl. f_equal; [f_equal; lia|].
        rewrite filter_filter.
        assert (Hf : forall x, In x (distinct col) ->
                  negb (mem x (map fst acc ++ [c]))
                  = negb (scalar_eqb x c) && negb (mem x (map fst acc))).
        { intros x _. unfold mem. rewrite existsb_app. cbn [existsb].
          rewrite orb_false_r, negb_orb. apply andb_comm. }
        rewrite (filter_ext_in _ _ _ Hf).
        apply map_ext_in. intros x Hx. apply filter_In in Hx as [_ Hx].
        rewrite occurrences_cons. destruct (scalar_eqb x c); [discriminate Hx|reflexivity].
Qed.

Lemma count_values_filter (col : list scalar) :
  forall acc, fold_left (fun m c => if notna c then tally c m else m) col acc =
              fold_left (fun m c => tally c m) (filter notna col) acc.
Proof.
  induction col as [|c col IH]; intros acc; [reflexivity|].
  cbn [fold_left filter]. destruct (notna c); cbn [fold_left]; apply IH.
Qed.

(** [count_values] lists the non-null values in first-seen order, each with
    its number of occurrences. *)
Lemma count_values_spec (col : list scalar) :
  count_values col = map (fun c => (c, occurrences c col)) (first_seen col).
Proof.
  unfold count_values, first_seen. rewrite count_values_filter.
  rewrite fold_tally by constructor.
  rewrite (filter_all (fun c => negb (mem c (map fst [])))) by reflexivity.
  cbn [map app].
  apply map_ext_in. intros c Hc. f_equal. apply occurrences_notna.
  apply (proj1 (In_distinct _ _)) in Hc. apply filter_In in Hc. apply Hc.
Qed.

(** ** Sorting by descending count *)

Lemma insert_desc_perm (x : scalar * nat) (l : list (scalar * nat)) :
  Permutation (insert_desc x l) (x :: l).
Proof.
  induction l as [|y l IH]; [apply Permutation_refl|].
  cbn [insert_desc]. destruct (snd x <? snd y)%nat; [|apply Permutation_refl].
  eapply Permutation_trans; [apply perm_skip, IH|apply perm_swap].
Qed.

Lemma sort_values_desc_perm (l : list (scalar * nat)) :
  Permutation (sort_values_desc l) l.
Proof.
  induction l as [|x l IH]; [apply Permutation_refl|].
  cbn [sort_values_desc fold_right]. fold (sort_values_desc l).
  eapply Permutation_trans; [apply insert_desc_perm|apply perm_skip, IH].
Qed.

Lemma insert_desc_sorted (x : scalar * nat) (l : list (scalar * nat)) :
  StronglySorted count_ge l -> StronglySorted count_ge (insert_desc x l).
Proof.
  induction l as [|y l IH]; intros Hs; [repeat constructor|].
  cbn [insert_desc]. apply StronglySorted_inv in Hs as [Hs Hall].
  destruct (Nat.ltb_spec (snd x) (snd y)) as [Hlt|Hge].
  - constructor; [apply IH; exact Hs|].
    apply (Permutation_Forall (Permutation_sym (insert_desc_perm x l))).
    constructor; [unfold count_ge; lia|exact Hall].
  - constructor; [constructor; assumption|].
    constructor; [exact Hge|].
    eapply Forall_impl; [|exact Hall]. unfold count_ge. intros a Ha. lia.
Qed.

Lemma sort_values_desc_sorted (l : list (scalar * nat)) :
  StronglySorted count_ge (sort_values_desc l).
Proof.
  induction l as [|x l IH]; [constructor|].
  cbn [sort_values_desc fold_right]. apply insert_desc_sorted. exact IH.
Qed.

Lemma insert_desc_stable (k : nat) (x : scalar * nat) (l : list (scalar * nat)) :
  filter (fun p => (snd p =? k)%nat) (insert_desc x l) =
  filter (fun p => (snd p =? k)%nat) (x :: l).
Proof.
  induction l as [|y l IH]; [reflexivity|].
  cbn [insert_desc]. destruct (Nat.ltb_spec (snd x) (snd y)) as [Hlt|Hge]; [|reflexivity].
  cbn [filter] in *. rewrite IH.
  destruct (Nat.eqb_spec (snd x) k), (Nat.eqb_spec (snd y) k); try reflexivity. lia.
Qed.

(** Entries with the same count keep their relative order. *)
Lemma sort_values_desc_stable (k : nat) (l : list (scalar * nat)) :
  filter (fun p => (snd p =? k)%nat) (sort_values_desc l) =
  filter (fun p => (snd p =? k)%nat) l.
Proof.
  induction l as [|x l IH]; [reflexivity|].
  cbn [sort_values_desc fold_right]. fold (sort_values_desc l).
  rewrite insert_desc_stable. cbn [filter]. rewrite IH. reflexivity.
Qed.

(** ** category_distribution *)

(** C5, as the code has it: for every non-empty ticket sequence,
    [category_distribution()] maps each distinct non-null category of the
    sequence to its number of occurrences, and has no other key (a ticket
    whose category is null, an empty cell, contributes no key); each key
    appears once; the entries are in descending order of count, and the
    categories with the same count are in first-seen order. *)
Theorem category_distribution_spec (ts : list Tickets) :
  ts <> [] ->
  exists m,
    category_distribution (TicketReport_init ts) = Ok m /\
    (forall c n, In (c, n) m <->
       notna c = true /\ In c (map category ts) /\ n = occurrences c (map category ts)) /\
    NoDup (map fst m) /\
    StronglySorted count_ge m /\
    (forall k, map fst (filter (fun p => (snd p =? k)%nat) m) =
               filter (fun c => (occurrences c (map category ts) =? k)%nat)
                      (first_seen (map category ts))).
Proof.
  destruct ts as [|t ts]; [intros H; contradiction H; reflexivity|]. intros _.
  set (cats := map category (t :: ts)).
  exists (value_counts cats). split.
  { unfold category_distribution. cbn [TicketReport_init df].
    rewrite getitem_nonempty by (cbn; tauto). reflexivity. }
  unfold value_counts.
  pose proof (sort_values_desc_perm (count_values cats)) as Hperm.
  rewrite count_values_spec in *.
  split; [|split; [|split]].
  - intros c n. split.
    + intros Hin. apply (Permutation_in _ Hperm) in Hin.
      apply in_map_iff in Hin as [c' [Heq Hin]]. inversion Heq; subst.
      unfold first_seen in Hin. apply (proj1 (In_distinct _ _)) in Hin.
      apply filter_In in Hin. tauto.
    + intros [Hna [Hin Hn]]. apply (Permutation_in _ (Permutation_sym Hperm)).
      apply in_map_iff. exists c. split; [subst; reflexivity|].
      unfold first_seen. apply (proj2 (In_distinct _ _)). apply filter_In. tauto.
  - apply (Permutation_NoDup (Permutation_sym (Permutation_map fst Hperm))).
    rewrite map_map. cbn [fst]. rewrite map_id. apply NoDup_distinct.
  - apply sort_values_desc_sorted.
  - intros k. rewrite sort_values_desc_stable. clear Hperm.
    induction (first_seen cats) as [|c l IH]; [reflexivity|].
    cbn [map filter snd]. destruct (occurrences c cats =? k)%nat; cbn [map fst];
      rewrite IH; reflexivity.
Qed.

Lemma category_distribution_spec_witness :
  exists m,
    category_distribution (TicketReport_init [uncategorised_ticket; closed_ticket]) = Ok m /\
    (forall c n, In (c, n) m <->
       notna c = true /\ In c (map category [uncategorised_ticket; closed_ticket]) /\
       n = occurrences c (map category [uncategorised_ticket; closed_ticket])) /\
    NoDup (map fst m) /\
    StronglySorted count_ge m /\
    (forall k, map fst (filter (fun p => (snd p =? k)%nat) m) =
               filter (fun c => (occurrences c (map category
                                   [uncategorised_ticket; closed_ticket]) =? k)%nat)
                      (first_seen (map category [uncategorised_ticket; closed_ticket]))).
Proof.
  apply (category_distribution_spec [uncategorised_ticket; closed_ticket]). discriminate.
Defined.

(** C5 as stated fails on a ticket without category followed by a 'network'
    ticket: the distribution is [{'network': 1}], and the category of the
    first ticket is not among its keys. *)
Lemma null_category_is_no_key :
  category_distribution (TicketReport_init [uncategorised_ticket; closed_ticket])
    = Ok [(Str "network", 1%nat)] /\
  In uncategorised_ticket [uncategorised_ticket; closed_ticket] /\
  ~ In (category uncategorised_ticket) (map fst [(Str "network", 1%nat)]).
Proof.
  split; [reflexivity|]. split; [left; reflexivity|].
  cbn. intros [H|[]]. discriminate H.
Qed.

(** Ties in first-seen order, on an example: 'b' and 'c' occur twice, 'a'
    and 'd' once. *)
Example category_distribution_ties :
  value_counts [Str "a"; Str "b"; Str "c"; Str "b"; Str "d"; Str "c"; Str "e"; Str "e"; Str "e"]
  = [(Str "e", 3%nat); (Str "b", 2%nat); (Str "c", 2%nat); (Str "a", 1%nat); (Str "d", 1%nat)].
Proof. reflexivity. Qed.

(** ** Construction of a ticket *)

Lemma lower_ascii_idempotent (c : ascii) : lower_ascii (lower_ascii c) = lower_ascii c.
Proof.
  destruct c as [[] [] [] [] [] [] [] []]; vm_compute; reflexivity.
Qed.

Lemma lower_idempotent (s : string) : lower (lower s) = lower s.
Proof.
  induction s as [|c s IH]; [reflexivity|].
  cbn [lower]. rewrite lower_ascii_idempotent, IH. reflexivity.
Qed.

(** The three outcomes of [Tickets.__init__]. *)
Lemma Tickets_init_cases (id : scalar) (o c : raw_date) (cat st : scalar) :
  (is_unparseable o || is_unparseable c = true /\
   Tickets_init id o c cat st = Raise ParseError) \/
  (is_unparseable o || is_unparseable c = false /\ is_str st = false /\
   Tickets_init id o c cat st = Raise (AttributeError "lower")) \/
  (is_unparseable o || is_unparseable c = false /\ is_str st = true /\
   exists t, Tickets_init id o c cat st = Ok t).
Proof.
  destruct o as [|to|no|xo], c as [|tc|nc|xc]; cbn;
    try (left; split; reflexivity);
    destruct st as [|s|n]; cbn;
    try (right; left; repeat split; reflexivity);
    right; right; repeat split; eexists; reflexivity.
Qed.

(** C6, as the code has it: ticket construction fails with a ParseError if
    and only if the opened date or the close date is present and
    unparseable; otherwise it fails with an AttributeError if and only if the
    status is not a string; and it succeeds in every other case, a missing
    opened date included. *)
Theorem Tickets_init_outcome (id : scalar) (o c : raw_date) (cat st : scalar) :
  (Tickets_init id o c cat st = Raise ParseError <->
     is_unparseable o || is_unparseable c = true) /\
  (Tickets_init id o c cat st = Raise (AttributeError "lower") <->
     is_unparseable o || is_unparseable c = false /\ is_str st = false) /\
  ((exists t, Tickets_init id o c cat st = Ok t) <->
     is_unparseable o || is_unparseable c = false /\ is_str st = true).
Proof.
  destruct (Tickets_init_cases id o c cat st)
    as [[Hu He]|[[Hu [Hs He]]|[Hu [Hs [t He]]]]]; rewrite He, Hu; try rewrite Hs.
  - split; [split; reflexivity|].
    split; [split; [intros H; discriminate H|intros [H _]; discriminate H]|].
    split; [intros [t H]; discriminate H|intros [H _]; discriminate H].
  - split; [split; intros H; discriminate H|].
    split; [split; [intros _; split; reflexivity|reflexivity]|].
    split; [intros [t H]; discriminate H|intros [_ H]; discriminate H].
  - split; [split; intros H; discriminate H|].
    split; [split; [intros H; discriminate H|intros [_ H]; discriminate H]|].
    split; [intros _; split; reflexivity|intros _; exists t; reflexivity].
Qed.

(** C6 as stated fails in both directions: a row without opened date is
    accepted (its opened date is NaT), and rows whose opened date is fine
    are rejected for an empty status cell and for an unparseable close
    date. *)
Lemma missing_opened_date_is_accepted :
  Tickets_init (Str "T-unopened") Blank Blank (Str "network") (Str "open")
    = Ok unopened_ticket /\
  Tickets_init (Str "T1") (DateTime jan_1) Blank (Str "network") NaN
    = Raise (AttributeError "lower") /\
  Tickets_init (Str "T1") (DateTime jan_1) (Unparseable "n/a") (Str "network") (Str "open")
    = Raise ParseError.
Proof. repeat split; reflexivity. Qed.

Lemma Ok_inj {A : Type} (a b : A) : Ok a = Ok b -> a = b.
Proof. intros H. injection H as H. exact H. Qed.

(** The lower-cased status is 'closed' only for ASCII input. *)
Lemma lower_closed_is_ascii (s : string) : lower s = "closed" -> is_ascii s = true.
Proof.
  assert (H : forall c : ascii, (nat_of_ascii (lower_ascii c) <? 128)%nat = true ->
                                (nat_of_ascii c <? 128)%nat = true).
  { intros c. destruct c as [[] [] [] [] [] [] [] []]; vm_compute; intros E;
      first [reflexivity|discriminate E]. }
  assert (Hs : is_ascii (lower s) = true -> is_ascii s = true).
  { induction s as [|c s IH]; [reflexivity|].
    cbn [lower is_ascii]. intros E. apply andb_true_iff in E. destruct E as [Ec Es].
    rewrite (H c Ec), (IH Es). reflexivity. }
  intros E. apply Hs. rewrite E. reflexivity.
Qed.

(** Creating objects keeps the objects that exist. *)
Lemma alloc_keeps (h : heap) (t t0 : Tickets) (r0 : ref) :
  nth_error h r0 = Some t0 -> nth_error (h ++ [t]) r0 = Some t0.
Proof.
  intros H. rewrite nth_error_app1; [exact H|].
  apply nth_error_Some. rewrite H. discriminate.
Qed.

(** Reading the attributes of objects leaves the heap as it is. *)
Lemma get_dicts_heap (refs : list ref) (h : heap) : fst (get_dicts refs h) = h.
Proof.
  induction refs as [|r refs IH]; [reflexivity|].
  cbn [get_dicts]. unfold bind_obj, get_dict.
  destruct (nth_error h r) as [t|]; [|reflexivity].
  specialize IH. destruct (get_dicts refs h) as [h' [ts|e]]; cbn in IH |- *; exact IH.
Qed.

Lemma new_TicketReport_heap (refs : list ref) (h : heap) :
  fst (new_TicketReport refs h) = h.
Proof.
  unfold new_TicketReport, bind_obj.
  pose proof (get_dicts_heap refs h) as H.
  destruct (get_dicts refs h) as [h' [ts|e]]; cbn in H |- *; exact H.
Qed.

(** The report of existing objects holds their attributes, in order. *)
Lemma get_dicts_values (ts : list Tickets) (refs : list ref) (h : heap) :
  Forall2 (fun r t => nth_error h r = Some t) refs ts ->
  get_dicts refs h = (h, Ok ts).
Proof.
  intros H. induction H as [|r t refs ts Hr _ IH]; [reflexivity|].
  cbn [get_dicts]. unfold bind_obj, get_dict. rewrite Hr, IH. reflexivity.
Qed.

(** C7, as the code has it.  Every constructed ticket has its status
    lower-cased (for ASCII text the stored status is the lower-cased cell,
    and for every text the status is 'closed' exactly when the lower-cased
    cell is).  Its closed date is [None] exactly when the close-date cell is
    empty and the timestamp of the cell exactly when the cell holds one,
    whatever the status; its opened date is the timestamp of the cell when
    the cell holds one and is missing (NaT) exactly when the cell is empty
    or converts to NaT; id and category are stored as given.  The record is
    never mutated afterwards: creating the ticket leaves every existing
    ticket object as it is, the new object holds the attributes that the
    constructor computed, and building a report from ticket objects reads
    their attributes and leaves every object as it is. *)
Theorem Tickets_init_fields (id : scalar) (o c : raw_date) (cat st : scalar) (t : Tickets) :
  Tickets_init id o c cat st = Ok t ->
  (exists s, st = Str s /\
             (is_ascii s = true -> status t = lower s /\ lower (status t) = status t) /\
             (is_closed t = true <-> lower s = "closed")) /\
  (date_closed t = None <-> c = Blank) /\
  (forall ts, date_closed t = Some (Some ts) <-> c = DateTime ts) /\
  (date_opened t = None <-> o = Blank \/ exists text, o = NaTText text) /\
  (forall ts, date_opened t = Some ts <-> o = DateTime ts) /\
  ticket_id t = id /\
  category t = cat /\
  (forall h : heap,
      new_Tickets id o c cat st h = (h ++ [t], Ok (List.length h)) /\
      get_dict (List.length h) (h ++ [t]) = (h ++ [t], Ok t) /\
      (forall r0 t0, nth_error h r0 = Some t0 -> nth_error (h ++ [t]) r0 = Some t0)) /\
  (forall (refs : list ref) (h : heap), fst (new_TicketReport refs h) = h) /\
  (forall (refs : list ref) (ts : list Tickets) (h : heap),
      Forall2 (fun r x => nth_error h r = Some x) refs ts ->
      new_TicketReport refs h = (h, Ok (TicketReport_init ts)) /\
      rows (df (TicketReport_init ts)) = ts).
Proof.
  intros H.
  assert (Hheap :
    (forall h : heap,
      new_Tickets id o c cat st h = (h ++ [t], Ok (List.length h)) /\
      get_dict (List.length h) (h ++ [t]) = (h ++ [t], Ok t) /\
      (forall r0 t0, nth_error h r0 = Some t0 -> nth_error (h ++ [t]) r0 = Some t0)) /\
    (forall (refs : list ref) (h : heap), fst (new_TicketReport refs h) = h) /\
    (forall (refs : list ref) (ts : list Tickets) (h : heap),
      Forall2 (fun r x => nth_error h r = Some x) refs ts ->
      new_TicketReport refs h = (h, Ok (TicketReport_init ts)) /\
      rows (df (TicketReport_init ts)) = ts)).
  { split; [|split].
    - intros h. unfold new_Tickets. rewrite H. split; [reflexivity|]. split.
      + unfold get_dict. rewrite nth_error_app2 by apply Nat.le_refl.
        rewrite Nat.sub_diag. reflexivity.
      + intros r0 t0. apply alloc_keeps.
    - apply new_TicketReport_heap.
    - intros refs ts h Hf. split.
      + unfold new_TicketReport, bind_obj. rewrite (get_dicts_values ts refs h Hf).
        reflexivity.
      + destruct ts; reflexivity. }
  assert (Hstatus : forall s, st = Str s -> status t = lower s ->
            (is_ascii s = true -> status t = lower s /\ lower (status t) = status t) /\
            (is_closed t = true <-> lower s = "closed")).
  { intros s _ Hs. split.
    - intros _. split; [exact Hs|]. rewrite Hs. apply lower_idempotent.
    - unfold is_closed. rewrite Hs. rewrite String.eqb_eq. split; intros E; symmetry; exact E. }
  destruct o as [|to|no|xo]; [| | |discriminate H];
    (destruct c as [|tc|nc|xc]; [| | |discriminate H]);
    (destruct st as [|s|n]; [discriminate H| |discriminate H]);
    cbn in H; apply Ok_inj in H; subst t;
    (split; [exists s; split; [reflexivity|apply Hstatus; reflexivity]|]);
    cbn [status date_closed date_opened ticket_id category];
    (split; [split; intros E; first [reflexivity|discriminate E]|]);
    (split; [intros ts; split; intros E; first [discriminate E|injection E as E; subst; reflexivity]|]);
    (split; [split;
             [intros E; first [discriminate E|left; reflexivity|right; eexists; reflexivity]
             |intros [E|[text E]]; first [reflexivity|discriminate E]]|]);
    (split; [intros ts; split; intros E; first [discriminate E|injection E as E; subst; reflexivity]|]);
    (split; [reflexivity|]); (split; [reflexivity|]); exact Hheap.
Qed.

Lemma Tickets_init_fields_witness :
  (exists s, Str "Closed" = Str s /\
             (is_ascii s = true ->
              status undated_closed_ticket = lower s /\
              lower (status undated_closed_ticket) = status undated_closed_ticket) /\
             (is_closed undated_closed_ticket = true <-> lower s = "closed")) /\
  (date_closed undated_closed_ticket = None <-> Blank = Blank) /\
  (forall ts, date_closed undated_closed_ticket = Some (Some ts) <-> Blank = DateTime ts) /\
  (date_opened undated_closed_ticket = None <->
     DateTime jan_1 = Blank \/ exists text, DateTime jan_1 = NaTText text) /\
  (forall ts, date_opened undated_closed_ticket = Some ts <-> DateTime jan_1 = DateTime ts) /\
  ticket_id undated_closed_ticket = Str "T-undated" /\
  category undated_closed_ticket = Str "network" /\
  (forall h : heap,
      new_Tickets (Str "T-undated") (DateTime jan_1) Blank (Str "network") (Str "Closed") h
        = (h ++ [undated_closed_ticket], Ok (List.length h)) /\
      get_dict (List.length h) (h ++ [undated_closed_ticket])
        = (h ++ [undated_closed_ticket], Ok undated_closed_ticket) /\
      (forall r0 t0, nth_error h r0 = Some t0 ->
                     nth_error (h ++ [undated_closed_ticket]) r0 = Some t0)) /\
  (forall (refs : list ref) (h : heap), fst (new_TicketReport refs h) = h) /\
  (forall (refs : list ref) (ts : list Tickets) (h : heap),
      Forall2 (fun r x => nth_error h r = Some x) refs ts ->
      new_TicketReport refs h = (h, Ok (TicketReport_init ts)) /\
      rows (df (TicketReport_init ts)) = ts).
Proof.
  apply (Tickets_init_fields (Str "T-undated") (DateTime jan_1) Blank (Str "network")
           (Str "Closed") undated_closed_ticket).
  reflexivity.
Defined.

(** A close-date cell that holds the text 'NaT' is not empty: the ticket's
    closed date is NaT, not [None]. *)
Lemma nat_closed_ticket_constructed :
  Tickets_init (Str "T-nat") (DateTime jan_1) (NaTText "NaT") (Str "network") (Str "Closed")
  = Ok nat_closed_ticket.
Proof. reflexivity. Qed.

(** C7 as stated fails: a row with status 'Open' and a close date gives a
    ticket whose closed date is not null although its status is not
    'closed', and a row without opened date gives a ticket without opened
    date. *)
Lemma invariant_not_enforced :
  Tickets_init (Str "T-reopened") (DateTime jan_1) (DateTime jan_2) (Str "network") (Str "Open")
    = Ok reopened_ticket /\
  ~ ticket_invariant reopened_ticket /\
  Tickets_init (Str "T-unopened") Blank Blank (Str "network") (Str "open")
    = Ok unopened_ticket /\
  ~ ticket_invariant unopened_ticket.
Proof.
  split; [reflexivity|]. split.
  - intros [H _]. cbn in H. specialize (H ltac:(discriminate)). discriminate H.
  - split; [reflexivity|]. intros [_ H]. apply H. reflexivity.
Qed.

(** ** Loading the tickets *)

(** No class named [Ticket] exists: the class is [Tickets]. *)
Lemma Ticket_undefined : lookup_global "Ticket" = Raise (NameError "Ticket").
Proof. reflexivity. Qed.

(** A sheet with at least one row cannot be loaded. *)
Lemma load_tickets_rows (w : World) (self : ReportGenarator) (row : RawRow) (sheet : list RawRow) :
  read_excel w (excel_path self) = Ok (row :: sheet) ->
  load_tickets w self = Raise (NameError "Ticket").
Proof. intros H. unfold load_tickets. rewrite H. reflexivity. Qed.

(** A sheet without rows gives no ticket. *)
Lemma load_tickets_no_row (w : World) (self : ReportGenarator) :
  read_excel w (excel_path self) = Ok [] -> load_tickets w self = Ok [].
Proof. intros H. unfold load_tickets. rewrite H. reflexivity. Qed.

(** The exception of [pd.read_excel] is not caught. *)
Lemma load_tickets_propagates (w : World) (self : ReportGenarator) (e : exn) :
  read_excel w (excel_path self) = Raise e -> load_tickets w self = Raise e.
Proof. intros H. unfold load_tickets. rewrite H. reflexivity. Qed.

(** With the class name that the module defines, the same rows are
    converted one by one. *)
Lemma Tickets_converts_row :
  (cls <- lookup_global "Tickets" ;; call_with_row cls sample_row)
  = Ok (mkTickets (Str "T1") (Some jan_1) (Some (Some jan_2)) (Str "network") "closed").
Proof. reflexivity. Qed.

(** C8, the defect: on a readable sheet with one well-formed row the load
    step does not return a ticket record; it raises NameError, because
    [load_tickets] calls the undefined name [Ticket]. *)
Theorem load_tickets_raises_NameError :
  read_excel friendly_world "tickets.xlsx" = Ok [sample_row] /\
  load_tickets friendly_world (ReportGenarator_init "tickets.xlsx" (Some email_settings))
    = Raise (NameError "Ticket").
Proof. split; reflexivity. Qed.

(** ** generate_report *)

(** Every run of [generate_report] raises before it prints or writes
    anything: the sheet cannot be read, or it has a row and [Ticket] is
    undefined, or it has no row and the empty frame has no 'status'
    column. *)
Lemma generate_report_always_raises (w : World) (self : ReportGenarator) :
  exists e, run (generate_report w self) = ([], Raise e).
Proof.
  unfold run, generate_report, bindIO, lift.
  destruct (read_excel w (excel_path self)) as [[|row sheet]|e] eqn:E.
  - rewrite (load_tickets_no_row w self E). eexists. reflexivity.
  - rewrite (load_tickets_rows w self row sheet E). eexists. reflexivity.
  - rewrite (load_tickets_propagates w self e E). eexists. reflexivity.
Qed.

(** No run of [generate_report] calls [send_email]. *)
Lemma generate_report_never_sends (w : World) (self : ReportGenarator) :
  filter is_send_email (fst (run (generate_report w self))) = [].
Proof.
  destruct (generate_report_always_raises w self) as [e He]. rewrite He. reflexivity.
Qed.

(** C9, the defect: with the non-empty configuration of the [__main__]
    block, a readable one-row sheet and writable outputs, [generate_report]
    does not reach the email step; it raises NameError in [load_tickets] with
    an empty trace. *)
Theorem generate_report_stops_before_email :
  email_config (ReportGenarator_init "tickets.xlsx" (Some email_settings)) <> [] /\
  run (generate_report friendly_world
         (ReportGenarator_init "tickets.xlsx" (Some email_settings)))
    = ([], Raise (NameError "Ticket")).
Proof. split; [discriminate|reflexivity]. Qed.

(** The part of [generate_report] behind the load step does what the
    specification says: given tickets, a non-empty configuration leads to a
    call of [send_email] with the two exported paths. *)
Example report_and_notify_sends :
  filter is_send_email
    (fst (run (report_and_notify friendly_world
                 (ReportGenarator_init "tickets.xlsx" (Some email_settings))
                 [closed_ticket])))
  = [SendEmailCalled [default_excel_path; default_pdf_path]].
Proof. reflexivity. Qed.

(** Without configuration, or with an empty one, that part skips the email. *)
Example report_and_notify_skips :
  filter is_send_email
    (fst (run (report_and_notify friendly_world
                 (ReportGenarator_init "tickets.xlsx" None) [closed_ticket]))) = [] /\
  filter is_send_email
    (fst (run (report_and_notify friendly_world
                 (ReportGenarator_init "tickets.xlsx" (Some [])) [closed_ticket]))) = [].
Proof. split; reflexivity. Qed.

(** ** summary *)

(** On at least one ticket, one of which has a close date, [summary()]
    returns, with the length of the sequence as total and the number of
    tickets whose status is 'closed' as closed count. *)
Lemma summary_dated (t : Tickets) (ts : list Tickets) :
  existsb (fun x => is_some (date_closed x)) (t :: ts) = true ->
  exists s,
    summary (TicketReport_init (t :: ts)) = Ok s /\
    total_tickets s = List.length (t :: ts) /\
    closed_tickets s = closed_count (t :: ts) /\
    closure_rate (TicketReport_init (t :: ts)) = Ok (closure_rate_pct s) /\
    tickets_per_day (TicketReport_init (t :: ts)) = Ok (tickets_per_day_map s) /\
    closed_tickets_per_day (TicketReport_init (t :: ts)) = Ok (closed_per_day_map s) /\
    category_distribution (TicketReport_init (t :: ts)) = Ok (by_category s).
Proof.
  intros Hd.
  assert (Hc : category_distribution (TicketReport_init (t :: ts))
               = Ok (value_counts (map category (t :: ts)))).
  { unfold category_distribution. cbn [TicketReport_init df].
    rewrite getitem_nonempty by (cbn; tauto). reflexivity. }
  unfold summary.
  change (df (TicketReport_init (t :: ts))) with (DataFrame_of_dicts (t :: ts)).
  rewrite closed_rows_nonempty. cbn [bind].
  rewrite closure_rate_cons. cbn [bind].
  rewrite tickets_per_day_cons. cbn [bind].
  rewrite (closed_tickets_per_day_dated t ts Hd). cbn [bind].
  rewrite Hc. cbn [bind].
  eexists. split; [reflexivity|].
  cbn [total_tickets closed_tickets closure_rate_pct tickets_per_day_map
       closed_per_day_map by_category].
  repeat split; reflexivity.
Qed.

(** ** The email step *)

Lemma for_each_lift {A : Type} (g : A -> result unit) (l : list A) (tr : list event) :
  fst (for_each (fun a => lift (g a)) l tr) = tr.
Proof.
  induction l as [|a l IH]; [reflexivity|].
  cbn [for_each]. unfold bindIO, lift at 1. destruct (g a) as [[]|e]; [exact IH|reflexivity].
Qed.

Lemma for_each_lift_ok {A : Type} (g : A -> result unit) (l : list A) (tr : list event) :
  is_ok (snd (for_each (fun a => lift (g a)) l tr)) = forallb (fun a => is_ok (g a)) l.
Proof.
  induction l as [|a l IH]; [reflexivity|].
  cbn [for_each forallb]. unfold bindIO, lift at 1.
  destruct (g a) as [[]|e]; [exact IH|reflexivity].
Qed.

(** The outcome and the trace of [send_email]: it returns exactly when
    every step succeeds, the call is recorded once, and the message is
    accepted at most once, exactly when every step up to [send_message]
    succeeds. *)
Lemma send_email_run (w : World) (self : ReportGenarator) (atts : list string)
    (tr : list event) :
  is_ok (snd (send_email w self atts tr)) = can_send w (email_config self) atts /\
  filter is_send_email (fst (send_email w self atts tr)) =
    filter is_send_email tr ++ [SendEmailCalled atts] /\
  filter is_message_sent (fst (send_email w self atts tr)) =
    filter is_message_sent tr ++
    (if can_transmit w (email_config self) atts then [MessageSent atts] else []).
Proof.
  unfold can_send, can_transmit, header_ok, connect_ok, login_ok.
  rewrite <- (for_each_lift_ok (open_rb w) atts (tr ++ [SendEmailCalled atts])).
  pose proof (for_each_lift (open_rb w) atts (tr ++ [SendEmailCalled atts])) as Hf.
  unfold send_email, with_exit, bindIO, emit, lift in *.
  set (cfg := email_config self) in *.
  assert (Hstop : forall (e : exn) (b : bool),
    is_ok (snd (tr ++ [SendEmailCalled atts], @Raise unit e)) = false && b /\
    filter is_send_email (fst (tr ++ [SendEmailCalled atts], @Raise unit e)) =
      filter is_send_email tr ++ [SendEmailCalled atts] /\
    filter is_message_sent (fst (tr ++ [SendEmailCalled atts], @Raise unit e)) =
      filter is_message_sent tr ++ []).
  { intros e b. cbn [fst snd is_ok andb]. rewrite !filter_app.
    cbn [filter is_send_email is_message_sent]. repeat split; reflexivity. }
  destruct (set_header w "Subject" (cfg_get cfg "subject" default_subject)) as [[]|e];
    cbn [is_ok andb bind]; [|apply (Hstop e true)].
  destruct (cfg_item cfg "from") as [sender|e]; cbn [is_ok andb bind];
    [|apply (Hstop e true)].
  destruct (set_header w "From" sender) as [[]|e]; cbn [is_ok andb bind];
    [|apply (Hstop e true)].
  destruct (cfg_item cfg "to") as [to|e]; cbn [is_ok andb bind];
    [|apply (Hstop e true)].
  destruct (set_header w "To" to) as [[]|e]; cbn [is_ok andb bind];
    [|apply (Hstop e true)].
  destruct (set_content w (cfg_get cfg "body" default_body)) as [[]|e];
    cbn [is_ok andb bind]; [|apply (Hstop e true)].
  destruct (for_each (fun file tr0 => (tr0, open_rb w file)) atts
              (tr ++ [SendEmailCalled atts])) as [tr' [[]|e]];
    cbn [fst] in Hf; subst tr'; cbn [fst snd is_ok andb bind];
    [|apply (Hstop e true)].
  destruct (cfg_item cfg "smtp_server") as [server|e]; cbn [is_ok andb bind];
    [|apply (Hstop e true)].
  destruct (cfg_item cfg "smtp_port") as [port|e]; cbn [is_ok andb bind];
    [|apply (Hstop e true)].
  destruct (smtp_connect w server port) as [[]|e]; cbn [is_ok andb bind];
    [|apply (Hstop e true)].
  assert (Hexit : forall e : exn,
    is_ok (snd (tr ++ [SendEmailCalled atts],
                match smtp_quit w with
                | Ok _ => @Raise unit e
                | Raise e' => Raise e'
                end)) = false).
  { intros e. destruct (smtp_quit w); reflexivity. }
  assert (Hleave : forall e : exn,
    (let (tr', r) := (tr ++ [SendEmailCalled atts],
                      match smtp_quit w with
                      | Ok _ => @Raise unit e
                      | Raise e' => Raise e'
                      end) in
     match r with
     | Ok _ => (tr' ++ [Printed (EmailSentTo to)], Ok tt)
     | Raise e0 => (tr', Raise e0)
     end) = (tr ++ [SendEmailCalled atts],
             match smtp_quit w with
             | Ok _ => @Raise unit e
             | Raise e' => Raise e'
             end)).
  { intros e. destruct (smtp_quit w); reflexivity. }
  destruct (cfg_item cfg "password") as [password|e]; cbn [is_ok andb bind].
  2: { rewrite Hleave, Hexit. cbn [fst]. rewrite !filter_app.
       cbn [filter is_send_email is_message_sent]. repeat split; reflexivity. }
  destruct (smtp_login w sender password) as [[]|e]; cbn [is_ok andb bind].
  2: { rewrite Hleave, Hexit. cbn [fst]. rewrite !filter_app.
       cbn [filter is_send_email is_message_sent]. repeat split; reflexivity. }
  destruct (smtp_send_message w) as [[]|e]; cbn [is_ok andb bind].
  2: { rewrite Hleave, Hexit. cbn [fst]. rewrite !filter_app.
       cbn [filter is_send_email is_message_sent]. repeat split; reflexivity. }
  destruct (smtp_quit w) as [[]|e]; cbn [fst snd is_ok andb bind];
    rewrite !filter_app; cbn [filter is_send_email is_message_sent];
    rewrite ?app_nil_r; repeat split; reflexivity.
Qed.

(** A call of [send_email] is recorded once, with its attachments. *)
Lemma send_email_trace (w : World) (self : ReportGenarator) (atts : list string)
    (tr : list event) :
  filter is_send_email (fst (send_email w self atts tr)) =
  filter is_send_email tr ++ [SendEmailCalled atts].
Proof. apply (send_email_run w self atts tr). Qed.

(** The part of [generate_report] behind the load step: when the summary
    and the two exports succeed, [send_email] is called, with exactly the
    two exported paths, if and only if the configuration is not empty. *)
Lemma report_and_notify_email (w : World) (self : ReportGenarator) (ts : list Tickets)
    (s : Summary) :
  summary (TicketReport_init ts) = Ok s ->
  write_excel w default_excel_path = Ok tt ->
  pdf_output w default_pdf_path = Ok tt ->
  filter is_send_email (fst (run (report_and_notify w self ts))) =
  match email_config self with
  | [] => []
  | _ :: _ => [SendEmailCalled [default_excel_path; default_pdf_path]]
  end.
Proof.
  intros Hs He Hp.
  unfold run, report_and_notify, export_to_excel, export_to_pdf, bindIO, lift.
  rewrite Hs. cbn [for_each summary_keys bindIO emit ret app].
  unfold bindIO, emit, ret. cbn [app]. rewrite He, Hp. cbn [app].
  destruct (email_config self) as [|b cfg] eqn:E; [reflexivity|].
  rewrite send_email_trace. reflexivity.
Qed.

(** * Further properties of the code *)

(** ** The buckets of the per-day groupings *)

Lemma count_at_cons (d : date) (p : date * nat) (m : list (date * nat)) :
  count_at d (p :: m) = ((if (fst p =? d)%Z then snd p else 0) + count_at d m)%nat.
Proof.
  destruct p as [d' n]. unfold count_at. cbn [filter fst snd].
  destruct (d' =? d); [apply sum_counts_cons|reflexivity].
Qed.

Lemma count_at_bump (x d : date) (k : nat) (m : list (date * nat)) :
  count_at x (bump d k m) = ((if (d =? x)%Z then k else 0) + count_at x m)%nat.
Proof.
  induction m as [|[d' n] m IH]; [cbn [bump]; rewrite count_at_cons; reflexivity|].
  cbn [bump]. destruct (Z.ltb_spec d d') as [Hlt|Hge].
  - rewrite count_at_cons. reflexivity.
  - destruct (Z.eqb_spec d d') as [Heq|Hne].
    + subst d'. rewrite !count_at_cons. cbn [fst snd]. destruct (d =? x); lia.
    + rewrite !count_at_cons, IH. cbn [fst snd]. lia.
Qed.

Lemma keys_bump (x d : date) (k : nat) (m : list (date * nat)) :
  In x (map fst (bump d k m)) <-> x = d \/ In x (map fst m).
Proof.
  induction m as [|[d' n] m IH]; [cbn; intuition congruence|].
  cbn [bump]. destruct (Z.ltb_spec d d') as [Hlt|Hge].
  - cbn [map fst In]. intuition congruence.
  - destruct (Z.eqb_spec d d') as [Heq|Hne].
    + subst d'. cbn [map fst In]. intuition congruence.
    + cbn [map fst In]. rewrite IH. intuition congruence.
Qed.

(** The key of a row: its date, when it has one. *)
Lemma count_at_group_count (d : date) (kvs : list (option date * scalar)) :
  count_at d (group_count kvs) =
  count (fun kv => match fst kv with Some d' => d' =? d | None => false end
                   && notna (snd kv)) kvs.
Proof.
  unfold count. induction kvs as [|[[d'|] v] kvs IH]; [reflexivity| |].
  - cbn [group_count filter fst snd]. rewrite count_at_bump, IH.
    destruct (d' =? d), (notna v); reflexivity.
  - cbn [group_count filter fst snd andb]. exact IH.
Qed.

Lemma keys_group_count (d : date) (kvs : list (option date * scalar)) :
  In d (map fst (group_count kvs)) <-> exists v, In (Some d, v) kvs.
Proof.
  induction kvs as [|[[d'|] v] kvs IH].
  - cbn. split; [tauto|intros [v []]].
  - cbn [group_count]. rewrite keys_bump, IH. cbn [In]. split.
    + intros [H|[v' H]]; [subst; exists v; left; reflexivity|exists v'; right; exact H].
    + intros [v' [H|H]]; [left; congruence|right; exists v'; exact H].
  - cbn [group_count]. rewrite IH. cbn [In]. split.
    + intros [v' H]. exists v'. right. exact H.
    + intros [v' [H|H]]; [discriminate H|exists v'; exact H].
Qed.

Lemma count_at_absent (d : date) (m : list (date * nat)) :
  ~ In d (map fst m) -> count_at d m = 0%nat.
Proof.
  induction m as [|[d' n] m IH]; intros H; [reflexivity|].
  rewrite count_at_cons. cbn [fst snd map In] in *.
  destruct (Z.eqb_spec d' d) as [E|E]; [exfalso; apply H; left; exact E|].
  apply IH. intros H'. apply H. right. exact H'.
Qed.

(** In a grouping with ascending keys, the entries are the keys with their
    counts. *)
Lemma sorted_entries (m : list (date * nat)) (d : date) (n : nat) :
  StronglySorted Z.lt (map fst m) ->
  (In (d, n) m <-> In d (map fst m) /\ n = count_at d m).
Proof.
  induction m as [|[d' n'] m IH]; intros Hs; [cbn; tauto|].
  cbn [map fst] in Hs. apply StronglySorted_inv in Hs as [Hs Hall].
  assert (Hfresh : ~ In d' (map fst m)).
  { intros Hin. rewrite Forall_forall in Hall. specialize (Hall d' Hin). lia. }
  rewrite count_at_cons. cbn [fst snd map In]. specialize (IH Hs). split.
  - intros [H|H].
    + inversion H; subst. rewrite Z.eqb_refl, (count_at_absent d m Hfresh).
      split; [left; reflexivity|lia].
    + apply IH in H as [Hk Hn]. split; [right; exact Hk|].
      destruct (Z.eqb_spec d' d) as [E|E]; [subst; contradiction|exact Hn].
  - intros [[H|H] Hn].
    + subst d'. rewrite Z.eqb_refl, (count_at_absent d m Hfresh) in Hn.
      left. f_equal. lia.
    + right. apply IH. split; [exact H|].
      destruct (Z.eqb_spec d' d) as [E|E]; [subst; contradiction|exact Hn].
Qed.

(** The entries of a grouping of ticket rows by a date attribute. *)
Lemma group_count_entries (f : Tickets -> option Timestamp) (l : list Tickets)
    (d : date) (n : nat) :
  let on := fun t => match f t with Some ts => date_of ts =? d | None => false end in
  In (d, n) (group_count (map (fun x => (option_map date_of (f x), ticket_id x)) l))
  <-> existsb on l = true /\ n = count (fun t => on t && has_id t) l.
Proof.
  intros on. rewrite sorted_entries by apply group_count_sorted.
  rewrite keys_group_count, count_at_group_count, count_map.
  assert (Hc : forall t : Tickets,
             match fst (option_map date_of (f t), ticket_id t) with
             | Some d' => d' =? d
             | None => false
             end && notna (snd (option_map date_of (f t), ticket_id t))
             = on t && has_id t).
  { intros t. unfold on, has_id. cbn [fst snd]. destruct (f t); reflexivity. }
  unfold count. rewrite (filter_ext _ _ Hc).
  assert (Hk : (exists v, In (Some d, v)
                            (map (fun x => (option_map date_of (f x), ticket_id x)) l))
               <-> existsb on l = true).
  { rewrite existsb_exists. split.
    - intros [v Hin]. apply in_map_iff in Hin as [t [Heq Hin]].
      exists t. split; [exact Hin|]. unfold on. inversion Heq as [[H1 H2]].
      destruct (f t); [|discriminate H1]. cbn in H1. inversion H1. apply Z.eqb_refl.
    - intros [t [Hin Hon]]. exists (ticket_id t). apply in_map_iff. exists t.
      split; [|exact Hin]. unfold on in Hon. destruct (f t); [|discriminate Hon].
      apply Z.eqb_eq in Hon. cbn. rewrite Hon. reflexivity. }
  rewrite Hk. reflexivity.
Qed.

(** X1: for a non-empty ticket sequence, [tickets_per_day()] returns its
    buckets in strictly ascending date order; a date has a bucket exactly
    when some ticket was opened on it, and the bucket's count is the number
    of tickets opened on that date whose id is not null. *)
Theorem tickets_per_day_buckets (ts : list Tickets) :
  ts <> [] ->
  exists m,
    tickets_per_day (TicketReport_init ts) = Ok m /\
    StronglySorted Z.lt (map fst m) /\
    forall d n, In (d, n) m <->
      existsb (opened_on d) ts = true /\
      n = count (fun t => opened_on d t && has_id t) ts.
Proof.
  destruct ts as [|t ts]; [intros H; contradiction H; reflexivity|]. intros _.
  eexists. split; [apply tickets_per_day_cons|].
  split; [apply group_count_sorted|].
  intros d n. apply (group_count_entries date_opened).
Qed.

Lemma tickets_per_day_buckets_witness :
  [closed_ticket; open_ticket] <> [] /\
  exists m,
    tickets_per_day (TicketReport_init [closed_ticket; open_ticket]) = Ok m /\
    StronglySorted Z.lt (map fst m) /\
    forall d n, In (d, n) m <->
      existsb (opened_on d) [closed_ticket; open_ticket] = true /\
      n = count (fun t => opened_on d t && has_id t) [closed_ticket; open_ticket].
Proof.
  split; [discriminate|].
  apply (tickets_per_day_buckets [closed_ticket; open_ticket]). discriminate.
Defined.

(** X2: when some ticket of the sequence has a close date,
    [closed_tickets_per_day()] returns its buckets in strictly ascending
    date order; a date has a bucket exactly when some ticket with status
    'closed' was closed on it, and the bucket's count is the number of such
    tickets whose id is not null.  Tickets with another status never
    contribute, whatever their close date. *)
Theorem closed_tickets_per_day_buckets (ts : list Tickets) :
  any_close_date ts = true ->
  exists m,
    closed_tickets_per_day (TicketReport_init ts) = Ok m /\
    StronglySorted Z.lt (map fst m) /\
    forall d n, In (d, n) m <->
      existsb (closed_on d) ts = true /\
      n = count (fun t => closed_on d t && has_id t) ts.
Proof.
  destruct ts as [|t ts]; [intros H; discriminate H|]. intros Hd.
  eexists. split; [apply closed_tickets_per_day_dated; exact Hd|].
  split; [apply group_count_sorted|].
  intros d n. rewrite (group_count_entries (fun x => as_datetime (date_closed x))). cbv zeta.
  assert (He : existsb (fun x => match as_datetime (date_closed x) with
                                 | Some ts0 => date_of ts0 =? d
                                 | None => false
                                 end) (filter is_closed (t :: ts))
               = existsb (closed_on d) (t :: ts)).
  { clear Hd. generalize (t :: ts) as l. intros l.
    induction l as [|a l IH]; [reflexivity|].
    cbn [filter existsb]. unfold closed_on at 1.
    destruct (is_closed a); cbn [existsb andb]; rewrite IH; reflexivity. }
  rewrite He, count_filter.
  assert (Hc : forall a : Tickets,
             is_closed a && (match as_datetime (date_closed a) with
                             | Some ts0 => date_of ts0 =? d
                             | None => false
                             end && has_id a)
             = closed_on d a && has_id a).
  { intros a. unfold closed_on. apply andb_assoc. }
  unfold count. rewrite (filter_ext _ _ Hc). reflexivity.
Qed.

Lemma closed_tickets_per_day_buckets_witness :
  any_close_date [reopened_ticket; closed_ticket; undated_closed_ticket] = true /\
  exists m,
    closed_tickets_per_day
      (TicketReport_init [reopened_ticket; closed_ticket; undated_closed_ticket]) = Ok m /\
    StronglySorted Z.lt (map fst m) /\
    forall d n, In (d, n) m <->
      existsb (closed_on d) [reopened_ticket; closed_ticket; undated_closed_ticket] = true /\
      n = count (fun t => closed_on d t && has_id t)
                [reopened_ticket; closed_ticket; undated_closed_ticket].
Proof.
  split; [reflexivity|].
  apply (closed_tickets_per_day_buckets
           [reopened_ticket; closed_ticket; undated_closed_ticket]).
  reflexivity.
Defined.

(** X3: [closed_tickets_per_day()] returns if and only if some ticket of
    the sequence, closed or not, has a 'date_closed' other than [None], that
    is, a close-date cell that was not empty (a timestamp, or NaT for a cell
    such as the text 'NaT').  On the empty sequence it raises KeyError, and
    on a non-empty sequence whose 'date_closed' are all [None] it raises
    AttributeError. *)
Theorem closed_tickets_per_day_outcome (ts : list Tickets) :
  (is_ok (closed_tickets_per_day (TicketReport_init ts)) = any_close_date ts) /\
  (ts = [] -> closed_tickets_per_day (TicketReport_init ts) = Raise (KeyError "status")) /\
  (ts <> [] -> any_close_date ts = false ->
   closed_tickets_per_day (TicketReport_init ts) = Raise (AttributeError "dt")).
Proof.
  destruct ts as [|t ts].
  - split; [reflexivity|]. split; [reflexivity|]. intros H. contradiction H. reflexivity.
  - split.
    + destruct (any_close_date (t :: ts)) eqn:E.
      * unfold any_close_date in E. rewrite (closed_tickets_per_day_dated t ts E). reflexivity.
      * unfold any_close_date in E. rewrite (closed_tickets_per_day_undated t ts E). reflexivity.
    + split; [discriminate|]. intros _ E. apply closed_tickets_per_day_undated. exact E.
Qed.

Lemma closed_tickets_per_day_outcome_witness :
  is_ok (closed_tickets_per_day (TicketReport_init [open_ticket; open_ticket])) = false /\
  closed_tickets_per_day (TicketReport_init [open_ticket; open_ticket])
    = Raise (AttributeError "dt").
Proof.
  destruct (closed_tickets_per_day_outcome [open_ticket; open_ticket]) as [H1 [_ H3]].
  split; [exact H1|]. apply H3; [discriminate|reflexivity].
Defined.

(** ** The order of the tickets *)

Lemma bump_comm (d1 d2 : date) (k1 k2 : nat) (m : list (date * nat)) :
  bump d1 k1 (bump d2 k2 m) = bump d2 k2 (bump d1 k1 m).
Proof.
  induction m as [|[x n] m IH].
  - cbn [bump].
    destruct (Z.ltb_spec d1 d2), (Z.ltb_spec d2 d1),
             (Z.eqb_spec d1 d2), (Z.eqb_spec d2 d1);
      try lia; try reflexivity.
    subst. f_equal. f_equal. lia.
  - cbn [bump].
    destruct (Z.ltb_spec d1 x), (Z.ltb_spec d2 x), (Z.eqb_spec d1 x), (Z.eqb_spec d2 x);
      cbn [bump];
      repeat match goal with
             | |- context [?a <? ?b] => destruct (Z.ltb_spec a b)
             | |- context [?a =? ?b] => destruct (Z.eqb_spec a b)
             end;
      try lia; try reflexivity; subst;
      try (f_equal; f_equal; lia); try (f_equal; exact IH).
Qed.

Lemma group_count_perm (l l' : list (option date * scalar)) :
  Permutation l l' -> group_count l = group_count l'.
Proof.
  induction 1 as [|[[d|] v] l l' _ IH|[[d1|] v1] [[d2|] v2] l|l l' l'' _ IH1 _ IH2].
  - reflexivity.
  - cbn [group_count]. rewrite IH. reflexivity.
  - cbn [group_count]. exact IH.
  - cbn [group_count]. apply bump_comm.
  - reflexivity.
  - reflexivity.
  - reflexivity.
  - rewrite IH1. exact IH2.
Qed.

Lemma filter_perm {A : Type} (p : A -> bool) (l l' : list A) :
  Permutation l l' -> Permutation (filter p l) (filter p l').
Proof.
  induction 1 as [|a l l' _ IH|a b l|l l' l'' _ IH1 _ IH2].
  - constructor.
  - cbn [filter]. destruct (p a); [constructor|]; exact IH.
  - cbn [filter]. destruct (p a), (p b); try apply Permutation_refl. constructor.
  - eapply Permutation_trans; eassumption.
Qed.

Lemma existsb_perm {A : Type} (p : A -> bool) (l l' : list A) :
  Permutation l l' -> existsb p l = existsb p l'.
Proof.
  induction 1 as [|a l l' _ IH|a b l|l l' l'' _ IH1 _ IH2].
  - reflexivity.
  - cbn [existsb]. rewrite IH. reflexivity.
  - cbn [existsb]. destruct (p a), (p b); reflexivity.
  - rewrite IH1. exact IH2.
Qed.

(** X4: the per-day groupings and the closure rate do not depend on the
    order of the tickets: on two sequences with the same tickets in a
    different order, [tickets_per_day()], [closed_tickets_per_day()] and
    [closure_rate()] return the same result or raise the same exception. *)
Theorem aggregations_ignore_order (ts ts' : list Tickets) :
  Permutation ts ts' ->
  tickets_per_day (TicketReport_init ts) = tickets_per_day (TicketReport_init ts') /\
  closed_tickets_per_day (TicketReport_init ts)
    = closed_tickets_per_day (TicketReport_init ts') /\
  closure_rate (TicketReport_init ts) = closure_rate (TicketReport_init ts').
Proof.
  intros Hp.
  destruct ts as [|t ts].
  { apply Permutation_nil in Hp. subst. repeat split; reflexivity. }
  destruct ts' as [|t' ts'].
  { apply Permutation_sym, Permutation_nil in Hp. discriminate Hp. }
  split; [|split].
  - rewrite !tickets_per_day_cons. f_equal.
    apply group_count_perm, Permutation_map. exact Hp.
  - pose proof (existsb_perm (fun x => is_some (date_closed x)) _ _ Hp) as He.
    destruct (existsb (fun x => is_some (date_closed x)) (t :: ts)) eqn:E.
    + rewrite (closed_tickets_per_day_dated t ts E).
      rewrite (closed_tickets_per_day_dated t' ts') by (rewrite <- He; reflexivity).
      f_equal. apply group_count_perm, Permutation_map, filter_perm. exact Hp.
    + rewrite (closed_tickets_per_day_undated t ts E).
      rewrite (closed_tickets_per_day_undated t' ts') by (rewrite <- He; reflexivity).
      reflexivity.
  - rewrite !closure_rate_cons.
    unfold closed_count, count.
    rewrite (Permutation_length (filter_perm is_closed _ _ Hp)).
    rewrite (Permutation_length Hp). reflexivity.
Qed.

Lemma aggregations_ignore_order_witness :
  Permutation [closed_ticket; open_ticket] [open_ticket; closed_ticket] /\
  tickets_per_day (TicketReport_init [closed_ticket; open_ticket])
    = tickets_per_day (TicketReport_init [open_ticket; closed_ticket]) /\
  closed_tickets_per_day (TicketReport_init [closed_ticket; open_ticket])
    = closed_tickets_per_day (TicketReport_init [open_ticket; closed_ticket]) /\
  closure_rate (TicketReport_init [closed_ticket; open_ticket])
    = closure_rate (TicketReport_init [open_ticket; closed_ticket]).
Proof.
  split; [apply perm_swap|].
  apply (aggregations_ignore_order [closed_ticket; open_ticket] [open_ticket; closed_ticket]).
  apply perm_swap.
Defined.

(** ** The counts of the category distribution *)

Lemma sum_counts_tally (c : scalar) (m : list (scalar * nat)) :
  sum_counts (tally c m) = S (sum_counts m).
Proof.
  induction m as [|[c' n] m IH]; [reflexivity|].
  cbn [tally]. destruct (scalar_eqb c c'); rewrite !sum_counts_cons; cbn [snd];
    [|rewrite IH]; lia.
Qed.

Lemma sum_counts_fold_tally (col : list scalar) :
  forall acc,
    sum_counts (fold_left (fun m c => if notna c then tally c m else m) col acc)
    = (sum_counts acc + count notna col)%nat.
Proof.
  unfold count. induction col as [|c col IH]; intros acc;
    [cbn [fold_left filter List.length]; lia|].
  cbn [fold_left filter]. rewrite IH. destruct (notna c); [|reflexivity].
  rewrite sum_counts_tally. cbn [List.length]. lia.
Qed.

Lemma sum_counts_insert_desc (x : scalar * nat) (l : list (scalar * nat)) :
  sum_counts (insert_desc x l) = (snd x + sum_counts l)%nat.
Proof.
  induction l as [|y l IH]; [reflexivity|].
  cbn [insert_desc]. destruct (snd x <? snd y)%nat; [|reflexivity].
  rewrite !sum_counts_cons, IH. lia.
Qed.

Lemma sum_counts_sort_values_desc (l : list (scalar * nat)) :
  sum_counts (sort_values_desc l) = sum_counts l.
Proof.
  induction l as [|x l IH]; [reflexivity|].
  cbn [sort_values_desc fold_right]. fold (sort_values_desc l).
  rewrite sum_counts_insert_desc, sum_counts_cons, IH. reflexivity.
Qed.

(** X5: for a non-empty ticket sequence, the counts of
    [category_distribution()] sum to the number of tickets whose category is
    not null; they sum to the number of tickets when every category is
    given. *)
Theorem category_counts_sum (ts : list Tickets) :
  ts <> [] ->
  exists m,
    category_distribution (TicketReport_init ts) = Ok m /\
    sum_counts m = count (fun t => notna (category t)) ts /\
    ((forall t, In t ts -> notna (category t) = true) -> sum_counts m = List.length ts).
Proof.
  destruct ts as [|t ts]; [intros H; contradiction H; reflexivity|]. intros _.
  exists (value_counts (map category (t :: ts))). split.
  { unfold category_distribution. cbn [TicketReport_init df].
    rewrite getitem_nonempty by (cbn; tauto). reflexivity. }
  assert (Hs : sum_counts (value_counts (map category (t :: ts)))
               = count (fun x => notna (category x)) (t :: ts)).
  { unfold value_counts, count_values.
    rewrite sum_counts_sort_values_desc, sum_counts_fold_tally, count_map. reflexivity. }
  split; [exact Hs|]. intros Hall. rewrite Hs. apply count_all. exact Hall.
Qed.

Lemma category_counts_sum_witness :
  [uncategorised_ticket; closed_ticket] <> [] /\
  exists m,
    category_distribution (TicketReport_init [uncategorised_ticket; closed_ticket]) = Ok m /\
    sum_counts m = 1%nat.
Proof.
  split; [discriminate|].
  destruct (category_counts_sum [uncategorised_ticket; closed_ticket]) as [m [Hm [Hs _]]];
    [discriminate|].
  exists m. split; [exact Hm|exact Hs].
Defined.

(** ** The closure rate at its ends *)

Lemma rne_exact (z d : Z) : 0 < d -> Binary64.rne (z * d) d = z.
Proof.
  intros Hd. apply Z.le_antisymm.
  - apply Binary64Facts.rne_le; [exact Hd|lia].
  - apply Binary64Facts.rne_ge; [exact Hd|lia].
Qed.

(** An integer below 2^53 is a double: rounding leaves it as it is. *)
Lemma RN_integer (q : Q) (B : Z) :
  0 <= B < 2 ^ 53 -> (q == inject_Z B)%Q -> (Binary64.RN q == inject_Z B)%Q.
Proof.
  intros HB Hq. apply Qle_antisym.
  - apply Binary64Facts.RN_le_int; [exact HB|]. rewrite Hq. apply Qle_refl.
  - unfold Binary64.RN.
    unfold Qeq in Hq. cbn [Qnum Qden inject_Z] in Hq. rewrite Z.mul_1_r in Hq.
    destruct (Z.leb_spec (Qnum q) 0) as [H|H].
    + unfold Qle. cbn [Qnum Qden inject_Z]. nia.
    + set (e := Binary64.ulp_exp (Qnum q) (Z.pos (Qden q))).
      assert (He : e <= 0) by (apply (Binary64Facts.ulp_exp_nonpos _ _ B); lia).
      destruct (Z.leb_spec e 0) as [_|He']; [|lia].
      rewrite Qred_correct. unfold Qle. cbn [Qnum Qden inject_Z].
      assert (Hp : 0 < 2 ^ (- e)) by (apply Z.pow_pos_nonneg; lia).
      rewrite Z2Pos.id by exact Hp. rewrite Z.mul_1_r.
      apply Binary64Facts.rne_ge; [lia|]. rewrite Hq. lia.
Qed.

Lemma round2_integer (x : Q) (B : Z) :
  0 <= B < 2 ^ 46 -> (x == inject_Z B)%Q -> (Binary64.round2 x == inject_Z B)%Q.
Proof.
  intros HB Hx. unfold Binary64.round2.
  assert (Hn : Qnum x = B * Z.pos (Qden x)).
  { unfold Qeq in Hx. cbn [Qnum Qden inject_Z] in Hx. lia. }
  replace (Qnum x * 100) with ((B * 100) * Z.pos (Qden x)) by lia.
  rewrite rne_exact by lia.
  apply RN_integer.
  - assert (2 ^ 53 = 2 ^ 46 * 128) by reflexivity. lia.
  - unfold Qeq. cbn [Qnum Qden inject_Z]. lia.
Qed.

(** X6: the closure rate is exact at both ends: when every ticket of a
    non-empty sequence has status 'closed', [closure_rate()] returns the
    float 100.0, and when none has, it returns the float 0.0. *)
Theorem closure_rate_extremes (ts : list Tickets) :
  ts <> [] ->
  (closed_count ts = List.length ts ->
   exists x, closure_rate (TicketReport_init ts) = Ok (PyFloat x) /\ (x == 100)%Q) /\
  (closed_count ts = 0%nat ->
   exists x, closure_rate (TicketReport_init ts) = Ok (PyFloat x) /\ (x == 0)%Q).
Proof.
  destruct ts as [|t ts]; [intros H; contradiction H; reflexivity|]. intros _.
  split; intros Hc; eexists; (split; [apply closure_rate_cons|]); rewrite Hc.
  - apply (round2_integer _ 100); [split; [lia|reflexivity]|].
    unfold Binary64.fmul. apply (RN_integer _ 100); [split; [lia|reflexivity]|].
    assert (H1 : (Binary64.truediv (Z.of_nat (List.length (t :: ts)))
                                   (Z.of_nat (List.length (t :: ts))) == inject_Z 1)%Q).
    { unfold Binary64.truediv. apply (RN_integer _ 1); [split; [lia|reflexivity]|].
      unfold Qeq. cbn [Qnum Qden inject_Z List.length].
      rewrite Z2Pos.id by lia. lia. }
    rewrite H1. reflexivity.
  - reflexivity.
Qed.

Lemma closure_rate_extremes_witness :
  (exists x, closure_rate (TicketReport_init [closed_ticket; undated_closed_ticket])
             = Ok (PyFloat x) /\ (x == 100)%Q) /\
  (exists x, closure_rate (TicketReport_init [open_ticket; reopened_ticket])
             = Ok (PyFloat x) /\ (x == 0)%Q).
Proof.
  split.
  - apply (closure_rate_extremes [closed_ticket; undated_closed_ticket]);
      [discriminate|reflexivity].
  - apply (closure_rate_extremes [open_ticket; reopened_ticket]);
      [discriminate|reflexivity].
Defined.

(** ** The summary as a whole *)

(** On a non-empty sequence without any close date, [summary()] raises the
    exception of [closed_tickets_per_day()]. *)
Lemma summary_undated (t : Tickets) (ts : list Tickets) :
  any_close_date (t :: ts) = false ->
  summary (TicketReport_init (t :: ts)) = Raise (AttributeError "dt").
Proof.
  intros E. unfold summary.
  change (df (TicketReport_init (t :: ts))) with (DataFrame_of_dicts (t :: ts)).
  rewrite closed_rows_nonempty. cbn [bind].
  rewrite closure_rate_cons. cbn [bind].
  rewrite tickets_per_day_cons. cbn [bind].
  rewrite (closed_tickets_per_day_undated t ts E). reflexivity.
Qed.

(** [summary()] returns exactly on the sequences with a close date. *)
Lemma summary_outcome_cases (ts : list Tickets) :
  (exists s, summary (TicketReport_init ts) = Ok s /\ any_close_date ts = true) \/
  (exists e, summary (TicketReport_init ts) = Raise e /\ any_close_date ts = false).
Proof.
  destruct ts as [|t ts]; [right; eexists; split; reflexivity|].
  destruct (any_close_date (t :: ts)) eqn:E.
  - destruct (summary_dated t ts E) as [s [Hs _]]. left. exists s. split; [exact Hs|reflexivity].
  - right. eexists. split; [apply summary_undated; exact E|reflexivity].
Qed.

(** X7: [summary()] returns if and only if the sequence is not empty and
    some ticket has a 'date_closed' other than [None], that is, a close-date
    cell that was not empty (a timestamp, or NaT for a cell such as the text
    'NaT').  It raises the KeyError of the 'status' lookup on the empty
    sequence and the AttributeError of the [.dt] accessor on a non-empty
    sequence whose 'date_closed' are all [None]. *)
Theorem summary_outcome (ts : list Tickets) :
  is_ok (summary (TicketReport_init ts)) = any_close_date ts /\
  (any_close_date ts = false ->
   summary (TicketReport_init ts) =
   Raise (match ts with
          | [] => KeyError "status"
          | _ :: _ => AttributeError "dt"
          end)).
Proof.
  destruct ts as [|t ts]; [split; reflexivity|].
  destruct (any_close_date (t :: ts)) eqn:E.
  - destruct (summary_dated t ts E) as [s [Hs _]]. rewrite Hs.
    split; [reflexivity|discriminate].
  - rewrite (summary_undated t ts E). split; [reflexivity|intros _; reflexivity].
Qed.

Lemma summary_outcome_witness :
  is_ok (summary (TicketReport_init [open_ticket; uncategorised_ticket])) = false /\
  summary (TicketReport_init [open_ticket; uncategorised_ticket])
    = Raise (AttributeError "dt").
Proof.
  destruct (summary_outcome [open_ticket; uncategorised_ticket]) as [H1 H2].
  split; [exact H1|]. apply H2. reflexivity.
Defined.

(** A close-date cell with the text 'NaT' is enough: the column is a
    datetime column, the report of that ticket alone has a summary, and the
    ticket is in the closed count and in no bucket. *)
Example nat_closed_ticket_alone_returns :
  any_close_date [nat_closed_ticket] = true /\
  closed_tickets_per_day (TicketReport_init [nat_closed_ticket]) = Ok [] /\
  exists s, summary (TicketReport_init [nat_closed_ticket]) = Ok s /\
            closed_tickets s = 1%nat /\ closed_per_day_map s = [].
Proof.
  split; [reflexivity|]. split; [reflexivity|].
  eexists. split; [reflexivity|]. split; reflexivity.
Qed.

(** X8: the numbers of a summary are consistent: the total is the length of
    the sequence, the closed count is the number of tickets with status
    'closed' and does not exceed the total, the opened-per-day counts sum to
    at most the total, the closed-per-day counts to at most the closed
    count, the category counts to at most the total, and the rate is the
    value of [closure_rate()]. *)
Theorem summary_consistent (ts : list Tickets) (s : Summary) :
  summary (TicketReport_init ts) = Ok s ->
  total_tickets s = List.length ts /\
  closed_tickets s = closed_count ts /\
  (closed_tickets s <= total_tickets s)%nat /\
  (sum_counts (tickets_per_day_map s) <= total_tickets s)%nat /\
  (sum_counts (closed_per_day_map s) <= closed_tickets s)%nat /\
  (sum_counts (by_category s) <= total_tickets s)%nat /\
  closure_rate (TicketReport_init ts) = Ok (closure_rate_pct s).
Proof.
  intros Hs.
  destruct ts as [|t ts]; [discriminate Hs|].
  destruct (any_close_date (t :: ts)) eqn:E.
  2: { rewrite (summary_undated t ts E) in Hs. discriminate Hs. }
  destruct (summary_dated t ts E) as [s' [Hs' [Ht [Hc [Hr [Ho [Hcl Hcat]]]]]]].
  rewrite Hs in Hs'. inversion Hs'; subst s'. clear Hs'.
  split; [exact Ht|]. split; [exact Hc|].
  split; [rewrite Ht, Hc; apply closed_count_le_length|].
  split; [|split; [|split; [|exact Hr]]].
  - rewrite tickets_per_day_cons in Ho. apply Ok_inj in Ho as Ho'. rewrite Ht, <- Ho'.
    rewrite sum_counts_group_count, count_map. apply count_le_length.
  - rewrite (closed_tickets_per_day_dated t ts E) in Hcl. apply Ok_inj in Hcl as Hcl'.
    rewrite Hc, <- Hcl'. rewrite sum_counts_group_count, count_map.
    unfold closed_count. apply count_le_length.
  - unfold category_distribution in Hcat. cbn [TicketReport_init df] in Hcat.
    rewrite getitem_nonempty in Hcat by (cbn; tauto). cbn [bind] in Hcat.
    apply Ok_inj in Hcat as Hcat'.
    rewrite Ht, <- Hcat'. unfold value_counts, count_values.
    rewrite sum_counts_sort_values_desc, sum_counts_fold_tally, count_map.
    apply count_le_length.
Qed.

Lemma summary_consistent_witness :
  exists s,
    summary (TicketReport_init [closed_ticket; undated_closed_ticket; open_ticket]) = Ok s /\
    total_tickets s = 3%nat /\
    closed_tickets s = 2%nat /\
    (sum_counts (closed_per_day_map s) <= closed_tickets s)%nat.
Proof.
  destruct (summary_dated closed_ticket [undated_closed_ticket; open_ticket])
    as [s [Hs _]]; [reflexivity|].
  exists s. split; [exact Hs|].
  destruct (summary_consistent [closed_ticket; undated_closed_ticket; open_ticket] s Hs)
    as [Ht [Hc [_ [_ [Hcl _]]]]].
  split; [exact Ht|]. split; [exact Hc|exact Hcl].
Defined.

(** ** The accuracy of the closure rate *)

Lemma ulp_exp_le (n d j : Z) :
  0 < n -> 0 < d -> 0 <= j <= 1000 -> n <= 2 ^ j * d ->
  Binary64.ulp_exp n d <= j - 52.
Proof.
  intros Hn Hd Hj Hle. unfold Binary64.ulp_exp.
  apply Z.max_lub; [|lia].
  destruct (Z.le_gt_cases (Binary64.ilog2 n d) j) as [H|H]; [lia|].
  pose proof (Binary64Facts.ilog2_lower n d Hn Hd ltac:(lia)) as Hl.
  assert (2 ^ (j + 1) <= 2 ^ Binary64.ilog2 n d) by (apply Z.pow_le_mono_r; lia).
  assert (2 ^ (j + 1) = 2 * 2 ^ j) by (rewrite Z.pow_add_r by lia; lia).
  assert (0 < 2 ^ j) by (apply Z.pow_pos_nonneg; lia).
  nia.
Qed.

(** Rounding a value of at most [2 ^ j] to a double moves it by at most
    [2 ^ (j - 53)]. *)
Lemma RN_error (q : Q) (j : Z) :
  0 <= j <= 52 -> (0 <= q)%Q -> (q <= inject_Z (2 ^ j))%Q ->
  (Qabs (Binary64.RN q - q) <= Qmake 1 (Z.to_pos (2 ^ (53 - j))))%Q.
Proof.
  intros Hj H0 Hq.
  unfold Qle in H0, Hq. cbn [Qnum Qden inject_Z] in H0, Hq.
  rewrite Z.mul_1_r in H0, Hq. change (0 * _) with 0 in H0.
  assert (Hpj : 0 < 2 ^ (53 - j)) by (apply Z.pow_pos_nonneg; lia).
  apply Qabs_Qle_condition.
  unfold Binary64.RN.
  destruct (Z.leb_spec (Qnum q) 0) as [Hn|Hn].
  - assert (Qnum q = 0) by lia.
    unfold Qle, Qminus, Qplus, Qopp. cbn [Qnum Qden].
    rewrite Z2Pos.id by exact Hpj. split; nia.
  - set (n := Qnum q) in *. set (d := Z.pos (Qden q)) in *.
    assert (Hd : 0 < d) by (unfold d; lia).
    pose proof (ulp_exp_le n d j Hn Hd ltac:(lia) Hq) as He.
    set (e := Binary64.ulp_exp n d) in *.
    destruct (Z.leb_spec e 0) as [_|He']; [|lia].
    rewrite Qred_correct.
    pose proof (Binary64Facts.rne_nearest (n * 2 ^ (- e)) d Hd) as Hnear.
    set (m := Binary64.rne (n * 2 ^ (- e)) d) in *.
    assert (Hs : 0 < 2 ^ (- e)) by (apply Z.pow_pos_nonneg; lia).
    assert (Hsplit : 2 ^ (- e) = 2 ^ (52 - j) * 2 ^ (j - 52 - e)).
    { rewrite <- Z.pow_add_r by lia. apply f_equal. lia. }
    assert (Hpp : 2 ^ (53 - j) = 2 * 2 ^ (52 - j)).
    { replace (53 - j) with (Z.succ (52 - j)) by lia. apply Z.pow_succ_r. lia. }
    assert (H1 : 0 < 2 ^ (52 - j)) by (apply Z.pow_pos_nonneg; lia).
    assert (H2 : 1 <= 2 ^ (j - 52 - e)) by (apply (Z.pow_le_mono_r 2 0); lia).
    set (s := 2 ^ (- e)) in *. set (a := 2 ^ (52 - j)) in *.
    set (b := 2 ^ (j - 52 - e)) in *. set (P := 2 ^ (53 - j)) in *.
    unfold Qle, Qminus, Qplus, Qopp. cbn [Qnum Qden].
    rewrite !Pos2Z.inj_mul, !Z2Pos.id by lia. fold d.
    apply Z.abs_le in Hnear.
    split; nia.
Qed.

Lemma round2_error (y : Q) :
  (0 <= y)%Q -> (y <= 100)%Q ->
  (Qabs (Binary64.round2 y - y) <= (1 # 200) + (1 # 70368744177664))%Q.
Proof.
  intros H0 H100. unfold Binary64.round2.
  set (k := Binary64.rne (Qnum y * 100) (Z.pos (Qden y))).
  assert (Hk0 : 0 <= k).
  { apply Binary64Facts.rne_nonneg; [lia|].
    unfold Qle in H0. cbn [Qnum Qden] in H0. lia. }
  assert (Hk1 : k <= 10000).
  { apply Binary64Facts.rne_le; [lia|].
    unfold Qle in H100. cbn [Qnum Qden] in H100. lia. }
  pose proof (Binary64Facts.rne_nearest (Qnum y * 100) (Z.pos (Qden y)) ltac:(lia)) as Hn.
  fold k in Hn. apply Z.abs_le in Hn.
  assert (Hz : (Qabs ((k # 100) - y) <= 1 # 200)%Q).
  { apply Qabs_Qle_condition. unfold Qle, Qminus, Qplus, Qopp. cbn [Qnum Qden].
    rewrite !Pos2Z.inj_mul. split; nia. }
  assert (Hr : (Qabs (Binary64.RN (k # 100) - (k # 100)) <= 1 # 70368744177664)%Q).
  { apply (RN_error (k # 100) 7); [lia| |].
    - unfold Qle. cbn [Qnum Qden]. lia.
    - unfold Qle. cbn [Qnum Qden inject_Z]. change (2 ^ 7) with 128. lia. }
  apply Qabs_Qle_condition in Hz, Hr. apply Qabs_Qle_condition.
  split; lra.
Qed.

(** X9: the closure rate is accurate: for every non-empty ticket sequence
    the float that [closure_rate()] returns differs from the exact
    percentage [100 * closedCount / totalCount] by at most 0.005 (half a
    unit of the second decimal) plus [2 ^ -44] for the roundings of the
    float operations. *)
Theorem closure_rate_accuracy (ts : list Tickets) :
  ts <> [] ->
  exists x,
    closure_rate (TicketReport_init ts) = Ok (PyFloat x) /\
    (Qabs (x - 100 * (Z.of_nat (closed_count ts) # Z.to_pos (Z.of_nat (List.length ts))))
     <= (1 # 200) + (1 # 17592186044416))%Q.
Proof.
  destruct ts as [|t ts]; [intros H; contradiction H; reflexivity|]. intros _.
  eexists. split; [apply closure_rate_cons|].
  set (c := Z.of_nat (closed_count (t :: ts))).
  set (n := Z.of_nat (List.length (t :: ts))).
  assert (Hc : 0 <= c <= n).
  { unfold c, n. pose proof (closed_count_le_length (t :: ts)). lia. }
  assert (Hn : 0 < n) by (unfold n; cbn [List.length]; lia).
  set (r := (c # Z.to_pos n)%Q).
  assert (Hr0 : (0 <= r)%Q) by (unfold r, Qle; cbn [Qnum Qden]; lia).
  assert (Hr1 : (r <= 1)%Q).
  { unfold r, Qle. cbn [Qnum Qden]. rewrite Z2Pos.id by exact Hn. lia. }
  pose proof (RN_error r 0 ltac:(lia) Hr0 Hr1) as E1.
  change (Z.to_pos (2 ^ (53 - 0))) with 9007199254740992%positive in E1.
  pose proof (Binary64Facts.RN_nonneg r) as A0.
  pose proof (Binary64Facts.truediv_le_1 c n Hc Hn) as A1.
  change (Binary64.truediv c n) with (Binary64.RN r) in *.
  set (x1 := Binary64.RN r) in *.
  assert (Hp0 : (0 <= x1 * inject_Z 100)%Q).
  { change (inject_Z 100) with 100%Q. lra. }
  assert (Hp1 : (x1 * inject_Z 100 <= inject_Z (2 ^ 7))%Q).
  { change (inject_Z 100) with 100%Q. change (inject_Z (2 ^ 7)) with 128%Q. lra. }
  pose proof (RN_error (x1 * inject_Z 100) 7 ltac:(lia) Hp0 Hp1) as E2.
  change (Z.to_pos (2 ^ (53 - 7))) with 70368744177664%positive in E2.
  pose proof (Binary64Facts.RN_nonneg (x1 * inject_Z 100)) as B0.
  pose proof (Binary64Facts.fmul_100_le x1 A1) as B1.
  unfold Binary64.fmul in *.
  set (y := Binary64.RN (x1 * inject_Z 100)) in *.
  pose proof (round2_error y B0 B1) as E3.
  set (x := Binary64.round2 y) in *.
  change (inject_Z 100) with 100%Q in E2.
  apply Qabs_Qle_condition in E1, E2, E3. apply Qabs_Qle_condition.
  split; lra.
Qed.

Lemma closure_rate_accuracy_witness :
  [closed_ticket; open_ticket; open_ticket] <> [] /\
  exists x,
    closure_rate (TicketReport_init [closed_ticket; open_ticket; open_ticket])
      = Ok (PyFloat x) /\
    (Qabs (x - 100 * (1 # 3)) <= (1 # 200) + (1 # 17592186044416))%Q.
Proof.
  split; [discriminate|].
  apply (closure_rate_accuracy [closed_ticket; open_ticket; open_ticket]). discriminate.
Defined.

(** ** The exports *)

(** X10: [export_to_excel] and [export_to_pdf] compute the summary before
    they touch a file.  When no ticket of the report has a close date they
    raise the exception of [summary()] and nothing is written.  When the
    summary can be computed and the write completes, they record one
    written file and return the path they were given; an exception of the
    write is not caught.  An export that returns has returned its path and
    written its file once, and some ticket of the report has a close
    date. *)
Theorem exports_outcome (w : World) (ts : list Tickets) (path : string) (tr : list event) :
  (any_close_date ts = false ->
   let e := match ts with
            | [] => KeyError "status"
            | _ :: _ => AttributeError "dt"
            end in
   export_to_excel w (TicketReport_init ts) path tr = (tr, Raise e) /\
   export_to_pdf w (TicketReport_init ts) path tr = (tr, Raise e)) /\
  (any_close_date ts = true ->
   (write_excel w path = Ok tt ->
    export_to_excel w (TicketReport_init ts) path tr = (tr ++ [ExcelWritten path], Ok path)) /\
   (pdf_output w path = Ok tt ->
    export_to_pdf w (TicketReport_init ts) path tr = (tr ++ [PdfWritten path], Ok path)) /\
   (forall e, write_excel w path = Raise e ->
              snd (export_to_excel w (TicketReport_init ts) path tr) = Raise e) /\
   (forall e, pdf_output w path = Raise e ->
              snd (export_to_pdf w (TicketReport_init ts) path tr) = Raise e)) /\
  (forall p, snd (export_to_excel w (TicketReport_init ts) path tr) = Ok p ->
             p = path /\ any_close_date ts = true /\
             fst (export_to_excel w (TicketReport_init ts) path tr)
               = tr ++ [ExcelWritten path]) /\
  (forall p, snd (export_to_pdf w (TicketReport_init ts) path tr) = Ok p ->
             p = path /\ any_close_date ts = true /\
             fst (export_to_pdf w (TicketReport_init ts) path tr)
               = tr ++ [PdfWritten path]).
Proof.
  unfold export_to_excel, export_to_pdf, bindIO, lift, emit, ret.
  destruct (summary_outcome_cases ts) as [[s [Hs Ha]]|[e [Hs Ha]]]; rewrite Hs, Ha.
  - split; [intros H; discriminate H|]. split; [intros _|split].
    + split; [intros Hw; rewrite Hw; reflexivity|].
      split; [intros Hw; rewrite Hw; reflexivity|].
      split; intros e Hw; rewrite Hw; reflexivity.
    + intros p. destruct (write_excel w path) as [[]|e]; cbn [fst snd]; intros H;
        [|discriminate H].
      apply Ok_inj in H. split; [symmetry; exact H|]. split; reflexivity.
    + intros p. destruct (pdf_output w path) as [[]|e]; cbn [fst snd]; intros H;
        [|discriminate H].
      apply Ok_inj in H. split; [symmetry; exact H|]. split; reflexivity.
  - split; [|split; [intros H; discriminate H|split; intros p H; discriminate H]].
    intros _. cbv zeta.
    destruct ts as [|t ts].
    + cbn in Hs. injection Hs as Hs. subst e. split; reflexivity.
    + rewrite (summary_undated t ts Ha) in Hs. injection Hs as Hs. subst e.
      split; reflexivity.
Qed.

Lemma exports_outcome_witness :
  export_to_excel friendly_world (TicketReport_init [undated_closed_ticket])
                  default_excel_path []
    = ([], Raise (AttributeError "dt")) /\
  export_to_pdf friendly_world (TicketReport_init [nat_closed_ticket]) default_pdf_path []
    = ([PdfWritten default_pdf_path], Ok default_pdf_path).
Proof.
  split.
  - apply (exports_outcome friendly_world [undated_closed_ticket] default_excel_path []).
    reflexivity.
  - apply (exports_outcome friendly_world [nat_closed_ticket] default_pdf_path []);
      reflexivity.
Defined.

(** ** The driver behind the load step *)

(** X11: there is no rollback: when the Excel export has succeeded and the
    PDF export fails, the run ends with the exception of the PDF export, the
    Excel file stays written, no PDF is recorded and [send_email] is not
    called, whatever the configuration. *)
Theorem pdf_failure_keeps_excel (w : World) (self : ReportGenarator) (ts : list Tickets)
    (e : exn) :
  any_close_date ts = true ->
  write_excel w default_excel_path = Ok tt ->
  pdf_output w default_pdf_path = Raise e ->
  snd (run (report_and_notify w self ts)) = Raise e /\
  filter is_file_written (fst (run (report_and_notify w self ts)))
    = [ExcelWritten default_excel_path] /\
  filter is_send_email (fst (run (report_and_notify w self ts))) = [].
Proof.
  intros Ha He Hp.
  destruct (summary_outcome_cases ts) as [[s [Hs _]]|[e' [_ Ha']]];
    [|rewrite Ha in Ha'; discriminate Ha'].
  unfold run, report_and_notify, export_to_excel, export_to_pdf, bindIO, lift.
  rewrite Hs. cbn [for_each summary_keys bindIO emit ret app].
  unfold bindIO, emit, ret. cbn [app]. rewrite He, Hp. cbn [app].
  repeat split; reflexivity.
Qed.

Lemma pdf_failure_keeps_excel_witness :
  snd (run (report_and_notify pdf_unwritable_world
              (ReportGenarator_init "tickets.xlsx" (Some email_settings))
              [closed_ticket])) = Raise IOError /\
  filter is_file_written
    (fst (run (report_and_notify pdf_unwritable_world
                 (ReportGenarator_init "tickets.xlsx" (Some email_settings))
                 [closed_ticket])))
    = [ExcelWritten default_excel_path] /\
  filter is_send_email
    (fst (run (report_and_notify pdf_unwritable_world
                 (ReportGenarator_init "tickets.xlsx" (Some email_settings))
                 [closed_ticket]))) = [].
Proof.
  apply (pdf_failure_keeps_excel pdf_unwritable_world
           (ReportGenarator_init "tickets.xlsx" (Some email_settings))
           [closed_ticket] IOError); reflexivity.
Defined.

(** X12: behind the load step, when the summary and both exports succeed,
    [send_email] is called once, with the Excel path followed by the PDF
    path, if the generator was built with a non-empty configuration; it is
    not called if the generator was built with no configuration, with [None]
    or with an empty dict. *)
Theorem email_step_follows_config (w : World) (path : string) (cfg : option config)
    (ts : list Tickets) :
  any_close_date ts = true ->
  write_excel w default_excel_path = Ok tt ->
  pdf_output w default_pdf_path = Ok tt ->
  filter is_send_email
    (fst (run (report_and_notify w (ReportGenarator_init path cfg) ts))) =
  match cfg with
  | Some (_ :: _) => [SendEmailCalled [default_excel_path; default_pdf_path]]
  | _ => []
  end.
Proof.
  intros Ha He Hp.
  destruct (summary_outcome_cases ts) as [[s [Hs _]]|[e' [_ Ha']]];
    [|rewrite Ha in Ha'; discriminate Ha'].
  rewrite (report_and_notify_email w _ ts s Hs He Hp).
  destruct cfg as [[|b cfg]|]; reflexivity.
Qed.

Lemma email_step_follows_config_witness :
  filter is_send_email
    (fst (run (report_and_notify friendly_world
                 (ReportGenarator_init "tickets.xlsx" (Some email_settings))
                 [closed_ticket])))
  = [SendEmailCalled [default_excel_path; default_pdf_path]] /\
  filter is_send_email
    (fst (run (report_and_notify friendly_world
                 (ReportGenarator_init "tickets.xlsx" None) [closed_ticket]))) = [].
Proof.
  split.
  - apply (email_step_follows_config friendly_world "tickets.xlsx" (Some email_settings)
             [closed_ticket]); reflexivity.
  - apply (email_step_follows_config friendly_world "tickets.xlsx" None [closed_ticket]);
      reflexivity.
Defined.

(** ** send_email *)

Lemma cfg_item_has_key (cfg : config) (key : string) :
  is_ok (cfg_item cfg key) = has_key cfg key.
Proof.
  unfold cfg_item, has_key. induction cfg as [|b cfg IH]; [reflexivity|].
  cbn [find existsb]. destruct (String.eqb key (fst b)); [reflexivity|exact IH].
Qed.

Lemma cfg_item_missing (cfg : config) (key : string) :
  has_key cfg key = false -> cfg_item cfg key = Raise (KeyError key).
Proof.
  unfold cfg_item, has_key. induction cfg as [|b cfg IH]; [reflexivity|].
  cbn [find existsb]. destruct (String.eqb key (fst b)); [discriminate|exact IH].
Qed.

Lemma header_ok_has_key (w : World) (cfg : config) (name key : string) :
  header_ok w cfg name key = true -> has_key cfg key = true.
Proof.
  unfold header_ok. rewrite <- cfg_item_has_key.
  destruct (cfg_item cfg key); [reflexivity|discriminate].
Qed.

(** The message is accepted only with the five keys that are read with
    [cfg[...]]. *)
Lemma can_transmit_keys (w : World) (cfg : config) (atts : list string) :
  can_transmit w cfg atts = true -> forallb (has_key cfg) required_keys = true.
Proof.
  unfold can_transmit. rewrite !andb_true_iff.
  intros [[[[[[[_ Hfrom] Hto] _] _] Hc] Hl] _].
  apply header_ok_has_key in Hfrom, Hto.
  unfold connect_ok in Hc. unfold login_ok in Hl.
  cbn [required_keys forallb]. rewrite Hfrom, Hto. rewrite <- !cfg_item_has_key.
  destruct (cfg_item cfg "smtp_server"); [|discriminate Hc].
  destruct (cfg_item cfg "smtp_port"); [|discriminate Hc].
  destruct (cfg_item cfg "from"); [|discriminate Hl].
  destruct (cfg_item cfg "password"); [|discriminate Hl].
  reflexivity.
Qed.

(** X13: [send_email] returns if and only if every one of its steps
    succeeds: the three headers and the body are accepted, every attachment
    can be read, the connection is opened, the login and the transmission
    succeed and the connection is closed in order.  The message is accepted
    by the server at most once (no retry), exactly when every step up to
    [send_message] succeeds; for that the configuration needs the keys
    'from', 'to', 'smtp_server', 'smtp_port' and 'password', while 'subject'
    and 'body' have defaults.  A call that returns has transmitted.  (The
    line printed at the end is taken to be accepted by standard output.) *)
Theorem send_email_outcome (w : World) (self : ReportGenarator) (atts : list string)
    (tr : list event) :
  is_ok (snd (send_email w self atts tr)) = can_send w (email_config self) atts /\
  filter is_message_sent (fst (send_email w self atts tr)) =
    filter is_message_sent tr ++
    (if can_transmit w (email_config self) atts then [MessageSent atts] else []) /\
  (can_transmit w (email_config self) atts = true ->
   forallb (has_key (email_config self)) required_keys = true) /\
  (is_ok (snd (send_email w self atts tr)) = true ->
   filter is_message_sent (fst (send_email w self atts tr)) =
     filter is_message_sent tr ++ [MessageSent atts]).
Proof.
  destruct (send_email_run w self atts tr) as [Hok [_ Hsent]].
  split; [exact Hok|]. split; [exact Hsent|]. split; [apply can_transmit_keys|].
  rewrite Hok, Hsent. unfold can_send. intros H. apply andb_true_iff in H.
  destruct H as [H _]. rewrite H. reflexivity.
Qed.

Lemma send_email_outcome_witness :
  is_ok (snd (send_email friendly_world
                (ReportGenarator_init "tickets.xlsx" (Some email_settings))
                [default_excel_path; default_pdf_path] [])) = true /\
  filter is_message_sent
    (fst (send_email friendly_world
            (ReportGenarator_init "tickets.xlsx" (Some email_settings))
            [default_excel_path; default_pdf_path] []))
    = [MessageSent [default_excel_path; default_pdf_path]] /\
  forallb (has_key email_settings) required_keys = true.
Proof.
  destruct (send_email_outcome friendly_world
              (ReportGenarator_init "tickets.xlsx" (Some email_settings))
              [default_excel_path; default_pdf_path] []) as [H1 [_ [H3 H4]]].
  split; [exact H1|]. split; [apply H4; exact H1|]. apply H3. reflexivity.
Defined.

(** A subject that the email library refuses (a text with a line feed, a
    value that is not a [str]) stops [send_email] at its first statement,
    also with a complete configuration. *)
Example refused_subject_stops_send_email :
  send_email subject_refusing_world
    (ReportGenarator_init "tickets.xlsx" (Some email_settings))
    [default_excel_path; default_pdf_path] []
  = ([SendEmailCalled [default_excel_path; default_pdf_path]], Raise ValueError).
Proof. reflexivity. Qed.

(** X14: when the 'Subject' header has been accepted, a configuration
    without 'from' makes [send_email] raise KeyError('from'); with 'from'
    present and accepted as the 'From' header, a configuration without 'to'
    makes it raise KeyError('to').  In both cases the call ends there:
    nothing further is recorded, so no message is transmitted. *)
Theorem send_email_missing_address (w : World) (self : ReportGenarator)
    (atts : list string) (tr : list event) :
  is_ok (set_header w "Subject"
           (cfg_get (email_config self) "subject" default_subject)) = true ->
  has_key (email_config self) "from" && has_key (email_config self) "to" = false ->
  (has_key (email_config self) "from" = true ->
   header_ok w (email_config self) "From" "from" = true) ->
  send_email w self atts tr
    = (tr ++ [SendEmailCalled atts],
       Raise (KeyError (if has_key (email_config self) "from" then "to" else "from"))) /\
  filter is_message_sent (fst (send_email w self atts tr)) = filter is_message_sent tr.
Proof.
  intros Hsub H Hfrom.
  assert (Hrun : send_email w self atts tr
    = (tr ++ [SendEmailCalled atts],
       Raise (KeyError (if has_key (email_config self) "from" then "to" else "from")))).
  { unfold send_email, bindIO, emit, lift.
    destruct (set_header w "Subject"
                (cfg_get (email_config self) "subject" default_subject)) as [[]|e];
      [|discriminate Hsub].
    destruct (has_key (email_config self) "from") eqn:Hf.
    - cbn [andb] in H. specialize (Hfrom eq_refl). unfold header_ok in Hfrom.
      destruct (cfg_item (email_config self) "from") as [sender|e]; [|discriminate Hfrom].
      destruct (set_header w "From" sender) as [[]|e]; [|discriminate Hfrom].
      rewrite (cfg_item_missing _ _ H). reflexivity.
    - rewrite (cfg_item_missing _ _ Hf). reflexivity. }
  split; [exact Hrun|]. rewrite Hrun. cbn [fst]. rewrite filter_app.
  cbn [filter is_message_sent]. apply app_nil_r.
Qed.

Lemma send_email_missing_address_witness :
  send_email friendly_world
    (ReportGenarator_init "tickets.xlsx" (Some [("from", Str "a@example.org")]))
    [default_excel_path] []
    = ([SendEmailCalled [default_excel_path]], Raise (KeyError "to")) /\
  filter is_message_sent
    (fst (send_email friendly_world
            (ReportGenarator_init "tickets.xlsx" (Some [("from", Str "a@example.org")]))
            [default_excel_path] [])) = [].
Proof.
  apply (send_email_missing_address friendly_world
           (ReportGenarator_init "tickets.xlsx" (Some [("from", Str "a@example.org")]))
           [default_excel_path] []); reflexivity.
Defined.

(** ** The whole run *)

(** X15: every run of [generate_report] ends with an exception before
    anything is printed, written or sent: the exception of [pd.read_excel]
    when the sheet cannot be read, NameError for the undefined name
    [Ticket] when the sheet has a row, and KeyError for the 'status' column
    when the sheet has no row. *)
Theorem generate_report_outcome (w : World) (self : ReportGenarator) :
  run (generate_report w self)
  = ([], Raise (generate_report_exn (read_excel w (excel_path self)))).
Proof.
  unfold run, generate_report, bindIO, lift.
  destruct (read_excel w (excel_path self)) as [[|row sheet]|e] eqn:E.
  - rewrite (load_tickets_no_row w self E). reflexivity.
  - rewrite (load_tickets_rows w self row sheet E). reflexivity.
  - rewrite (load_tickets_propagates w self e E). reflexivity.
Qed.

(** X16: the script's entry point fails in every environment: the name
    [ReportGenerator] is not defined (the class is [ReportGenarator]), so
    running the module raises NameError before the source is read. *)
Theorem main_raises_NameError (w : World) :
  run (main w) = ([], Raise (NameError "ReportGenerator")).
Proof. reflexivity. Qed.
